(** * RoboExplore build script: supervised commands and incremental rebuilds

    A shallow embedding of [make.py]: the command runner [call_cli] and the
    TypeScript rebuild step [build_typescript], with the parts of the Python
    library they rely on ([str.split], slicing, [bytes.decode], [max],
    [os.walk], [os.path.getmtime]).

    Conventions.
    - The child process and the clock are inputs of a run: [call_cli] is
      given the clock readings it takes and what each call of
      [communicate] does, and [Supervision] derives these from a child that
      writes and exits at given times, and whose pipes reach their end at a
      given time: [communicate] returns once both have happened.
    - Clock readings ([time.time()]) and limits are integers in milliseconds,
      so the defaults 10.0 and 60.0 seconds read 10000 and 60000.
    - [bytes] and [str] are both [string] (a list of 8-bit characters); a
      [str] is kept in its UTF-8 encoding, which [decode_utf8] validates.
      Splitting at line feeds commutes with that encoding.
    - A path is the list of its components, [join d f] is [d ++ [f]]. *)

From Stdlib Require Import ZArith NArith List Bool Lia Ascii String.
Import ListNotations.

Open Scope string_scope.
Open Scope Z_scope.

(** ** Python library functions *)

Module Py.

(** [s.split("\n")]: never empty, one more piece than there are line feeds. *)
Fixpoint split_nl (s : string) : list string :=
  match s with
  | EmptyString => [""]
  | String c t =>
      if Ascii.eqb c "010"%char then "" :: split_nl t
      else match split_nl t with
           | h :: r => String c h :: r
           | [] => [String c ""]
           end
  end.

(** [l[a:-1]] for [a >= 0]: the items from index [a] on, the last one left out. *)
Definition slice_to_last {A : Type} (a : nat) (l : list A) : list A :=
  skipn a (removelast l).

Definition in_range (lo hi : N) (c : ascii) : bool :=
  let n := N_of_ascii c in ((lo <=? n) && (n <=? hi))%N.

Definition continuation : ascii -> bool := in_range 0x80 0xBF.

(** Second byte of a three-byte sequence, by its lead byte: no overlong
    forms, no surrogates. *)
Definition second_of_3 (a b : ascii) : bool :=
  if in_range 0xE0 0xE0 a then in_range 0xA0 0xBF b
  else if in_range 0xED 0xED a then in_range 0x80 0x9F b
  else in_range 0xE1 0xEF a && continuation b.

(** Second byte of a four-byte sequence: nothing above U+10FFFF. *)
Definition second_of_4 (a b : ascii) : bool :=
  if in_range 0xF0 0xF0 a then in_range 0x90 0xBF b
  else if in_range 0xF4 0xF4 a then in_range 0x80 0x8F b
  else in_range 0xF1 0xF3 a && continuation b.

(** Strict UTF-8 well-formedness, as [bytes.decode("UTF-8")] checks it. *)
Fixpoint utf8_valid (s : string) : bool :=
  match s with
  | EmptyString => true
  | String a t =>
      if in_range 0x00 0x7F a then utf8_valid t
      else
        match t with
        | EmptyString => false
        | String b t2 =>
            if in_range 0xC2 0xDF a then continuation b && utf8_valid t2
            else
              match t2 with
              | EmptyString => false
              | String c t3 =>
                  if in_range 0xE0 0xEF a
                  then second_of_3 a b && continuation c && utf8_valid t3
                  else
                    match t3 with
                    | EmptyString => false
                    | String d t4 =>
                        second_of_4 a b && continuation c && continuation d
                        && utf8_valid t4
                    end
              end
        end
  end.

(** [b.decode("UTF-8")]; [None] stands for [UnicodeDecodeError]. *)
Definition decode_utf8 (b : string) : option string :=
  if utf8_valid b then Some b else None.

(** [max(l)] on numbers; [None] stands for the [ValueError] on an empty list. *)
Definition max (l : list Z) : option Z :=
  match l with
  | [] => None
  | x :: r => Some (fold_left Z.max r x)
  end.

(** A keyword argument with a default value: left out, or given. *)
Inductive arg (A : Type) : Type :=
| Omitted
| Given (a : A).
Arguments Omitted {A}.
Arguments Given {A} a.

Definition or_default {A : Type} (d : A) (x : arg A) : A :=
  match x with
  | Omitted => d
  | Given a => a
  end.

End Py.

(** ** Exceptions *)

Inductive exn : Type :=
| CommandHung (command : string) (max_hang run_time : Z)
| CommandTimeout (command : string) (max_time : Z)
| WrongReturnCode (command : string) (expected actual : Z)
| UnicodeDecodeError
| ValueError
| FileNotFoundError
| KeyboardInterrupt.

Definition path := list string.

(** ** The command runner *)

Module Runner.

(** What one call [process.communicate(timeout=2.0)] does, with the clock
    reading that follows it when it times out. [TimeoutExpired] carries what
    was captured so far, as [bytes], or [None] when nothing was.
    [Interrupted e reaped] is any other exception [e] out of the call;
    [reaped] is the return code the call has set when it raises after it has
    waited for the child, as it does when, in text mode, what it read does
    not decode: the decoding comes after the wait. *)
Inductive communicated : Type :=
| Finished (stdout stderr : string) (returncode : Z)
| TimeoutExpired (stdout stderr : option string) (now : Z)
| Interrupted (e : exn) (reaped : option Z).

(** The surroundings of one run: the two clock readings taken before the
    loop and the successive outcomes of [communicate]. *)
Record world : Type := {
  time_start : Z;
  time_spawned : Z;
  communicate : list communicated
}.

(** The child as the [Popen] object has it: [Running] until a wait for it
    has succeeded, [Exited] with its return code from then on, [Killed] once
    [kill()] was called on it while no wait had succeeded. *)
Inductive process_state : Type :=
| Running
| Exited (returncode : Z)
| Killed.

(** [process.kill()]: no effect on a child that was already reaped. *)
Definition kill (p : process_state) : process_state :=
  match p with
  | Running => Killed
  | Exited rc => Exited rc
  | Killed => Killed
  end.

Record locals : Type := {
  hang_end : Z;
  last_stdout_len : nat;
  last_stderr_len : nat;
  printed_stdout_lines : nat;
  printed_stderr_lines : nat;
  done : bool;
  process : process_state;
  console : list string
}.

Definition print (line : string) (st : locals) : locals :=
  {| hang_end := hang_end st;
     last_stdout_len := last_stdout_len st;
     last_stderr_len := last_stderr_len st;
     printed_stdout_lines := printed_stdout_lines st;
     printed_stderr_lines := printed_stderr_lines st;
     done := done st;
     process := process st;
     console := console st ++ [line] |}.

Definition print_all (lines : list string) (st : locals) : locals :=
  fold_left (fun s l => print l s) lines st.

Definition tag_stdout : string := "STDOUT > ".
Definition tag_stderr : string := "STDERR > ".

(** A line as the echo prints it: some text under one of the two tags. *)
Definition tagged (line : string) : Prop :=
  exists text, line = tag_stdout ++ text \/ line = tag_stderr ++ text.

(** [stdout and len(stdout) > last_stdout_len], as a truth value. *)
Definition updated (captured : option string) (last_len : nat) : bool :=
  match captured with
  | None => false
  | Some b => negb (String.eqb b "") && (last_len <? String.length b)%nat
  end.

(** Where control is after a block: it goes on, an exception is on its way
    up, or ([Pending], from [poll_loop] only) the recorded outcomes of
    [communicate] ended while the loop would have called it again. *)
Inductive flow : Type :=
| Continue (st : locals)
| Throw (e : exn) (st : locals)
| Pending (st : locals).

Definition bind (f : flow) (k : locals -> flow) : flow :=
  match f with
  | Continue st => k st
  | Throw e st => Throw e st
  | Pending st => Pending st
  end.

Notation "f >>= k" := (bind f k) (at level 50, left associativity).

(** Lines 64-69. *)
Definition echo_stdout (captured : option string) (st : locals) : flow :=
  match captured with
  | None => Continue st
  | Some stdout =>
      match Py.decode_utf8 stdout with
      | None => Throw UnicodeDecodeError st
      | Some text =>
          let lines := Py.split_nl text in
          let st := print_all
                      (map (append tag_stdout)
                           (Py.slice_to_last (printed_stdout_lines st) lines)) st in
          Continue {| hang_end := hang_end st;
                      last_stdout_len := String.length stdout;
                      last_stderr_len := last_stderr_len st;
                      printed_stdout_lines := List.length lines;
                      printed_stderr_lines := printed_stderr_lines st;
                      done := done st;
                      process := process st;
                      console := console st |}
      end
  end.

(** Lines 70-75. *)
Definition echo_stderr (captured : option string) (st : locals) : flow :=
  match captured with
  | None => Continue st
  | Some stderr =>
      match Py.decode_utf8 stderr with
      | None => Throw UnicodeDecodeError st
      | Some text =>
          let lines := Py.split_nl text in
          let st := print_all
                      (map (append tag_stderr)
                           (Py.slice_to_last (printed_stderr_lines st) lines)) st in
          Continue {| hang_end := hang_end st;
                      last_stdout_len := last_stdout_len st;
                      last_stderr_len := String.length stderr;
                      printed_stdout_lines := printed_stdout_lines st;
                      printed_stderr_lines := List.length lines;
                      done := done st;
                      process := process st;
                      console := console st |}
      end
  end.

Definition set_hang_end (t : Z) (st : locals) : locals :=
  {| hang_end := t;
     last_stdout_len := last_stdout_len st;
     last_stderr_len := last_stderr_len st;
     printed_stdout_lines := printed_stdout_lines st;
     printed_stderr_lines := printed_stderr_lines st;
     done := done st;
     process := process st;
     console := console st |}.

Definition set_done (rc : Z) (st : locals) : locals :=
  {| hang_end := hang_end st;
     last_stdout_len := last_stdout_len st;
     last_stderr_len := last_stderr_len st;
     printed_stdout_lines := printed_stdout_lines st;
     printed_stderr_lines := printed_stderr_lines st;
     done := true;
     process := Exited rc;
     console := console st |}.

(** The child as a call of [communicate] that raised leaves it: reaped, if
    the exception came after the wait. *)
Definition reap (reaped : option Z) (st : locals) : locals :=
  match reaped with
  | Some rc =>
      {| hang_end := hang_end st;
         last_stdout_len := last_stdout_len st;
         last_stderr_len := last_stderr_len st;
         printed_stdout_lines := printed_stdout_lines st;
         printed_stderr_lines := printed_stderr_lines st;
         done := done st;
         process := Exited rc;
         console := console st |}
  | None => st
  end.

Section Loop.

Variable command : string.
Variable max_hang max_time : Z.
Variable start absolute_end : Z.

(** Lines 77-84. *)
Definition check_deadlines (any_updated : bool) (now : Z) (st : locals) : flow :=
  (if any_updated then Continue (set_hang_end (now + max_hang) st)
   else if hang_end st <? now then Throw (CommandHung command max_hang (now - start)) st
   else Continue st)
  >>= fun st =>
  if absolute_end <? now then Throw (CommandTimeout command max_time) st
  else Continue st.

(** One turn of the [while not done] loop, lines 55-95. *)
Definition iteration (r : communicated) (st : locals) : flow :=
  match r with
  | Interrupted e reaped => Throw e (reap reaped st)
  | TimeoutExpired stdout stderr now =>
      let stdout_updated := updated stdout (last_stdout_len st) in
      let stderr_updated := updated stderr (last_stderr_len st) in
      (if stdout_updated then echo_stdout stdout st else Continue st)
      >>= fun st =>
      (if stderr_updated then echo_stderr stderr st else Continue st)
      >>= fun st =>
      check_deadlines (stdout_updated || stderr_updated) now st
  | Finished stdout stderr returncode =>
      let st := print_all
                  (map (append tag_stdout)
                       (Py.slice_to_last (printed_stdout_lines st) (Py.split_nl stdout)))
                  st in
      let st := print_all
                  (map (append tag_stderr)
                       (Py.slice_to_last (printed_stderr_lines st) (Py.split_nl stderr)))
                  st in
      Continue (set_done returncode st)
  end.

(** The loop of lines 53-95 over the outcomes of [communicate]. *)
Fixpoint poll_loop (rs : list communicated) (st : locals) : flow :=
  if done st then Continue st
  else
    match rs with
    | [] => Pending st
    | r :: rest => iteration r st >>= poll_loop rest
    end.

End Loop.

(** The state an outcome of a block carries. *)
Definition state_of (f : flow) : locals :=
  match f with
  | Continue st => st
  | Throw _ st => st
  | Pending st => st
  end.

(** Neither the [done] flag nor the child differ between two states. *)
Definition same_child (st st' : locals) : Prop :=
  done st' = done st /\ process st' = process st.

(** The invariant of the loop: the child runs until [done] is set, and has
    exited by itself from then on. *)
Definition child_tracked (st : locals) : Prop :=
  if done st then exists rc, process st = Exited rc else process st = Running.

(** How the loop leaves the child: running while it polls, reaped when it
    is done, and when it raises, running still unless the exception is one
    that [communicate] raised after its wait. *)
Definition left_tracked (rs : list communicated) (f : flow) : Prop :=
  match f with
  | Throw e st =>
      done st = false /\
      (process st = Running \/
       exists rc, In (Interrupted e (Some rc)) rs /\ process st = Exited rc)
  | _ => child_tracked (state_of f)
  end.

(** How a call ended ([Polling]: it had not, when the recorded outcomes of
    [communicate] ran out), what it printed, and what became of the child. *)
Inductive ending (A : Type) : Type :=
| Polling
| Returned (v : A)
| Raised (e : exn).
Arguments Polling {A}.
Arguments Returned {A} v.
Arguments Raised {A} e.

Record run : Type := {
  ended : ending unit;
  printed : list string;
  child : process_state;
  spawned_command : string;
  spawned_cwd : option path
}.

(** [finally: if not done: process.kill()]. *)
Definition finally (st : locals) : process_state :=
  if done st then process st else kill (process st).

(** The [try] statement around the loop and the return code check:
    [except: print(""); raise], then the [finally] clause. *)
Definition unwind (command : string) (directory : option path) (f : flow) : run :=
  match f with
  | Continue st =>
      {| ended := Returned tt;
         printed := console st;
         child := finally st;
         spawned_command := command;
         spawned_cwd := directory |}
  | Throw e st =>
      let st := print "" st in
      {| ended := Raised e;
         printed := console st;
         child := finally st;
         spawned_command := command;
         spawned_cwd := directory |}
  | Pending st =>
      {| ended := Polling;
         printed := console st;
         child := process st;
         spawned_command := command;
         spawned_cwd := directory |}
  end.

(** Lines 97-98. *)
Definition check_return_code (command : string) (expected_return_code : option Z)
    (st : locals) : flow :=
  match expected_return_code, process st with
  | Some expected, Exited actual =>
      if negb (actual =? expected) then Throw (WrongReturnCode command expected actual) st
      else Continue st
  | _, _ => Continue st
  end.

(** The body of [call_cli], every argument given. *)
Definition call_cli_body (command : string) (directory : option path)
    (max_hang max_time : Z) (expected_return_code : option Z) (w : world) : run :=
  let start := time_start w in
  let now := time_spawned w in
  let absolute_end := now + max_time in
  let st := {| hang_end := now + max_hang;
               last_stdout_len := 0;
               last_stderr_len := 0;
               printed_stdout_lines := 0;
               printed_stderr_lines := 0;
               done := false;
               process := Running;
               console := [] |} in
  unwind command directory
    (poll_loop command max_hang max_time start absolute_end (communicate w) st
     >>= check_return_code command expected_return_code).

(** [call_cli(command, directory=None, max_hang=10.0, max_time=60.0,
    expected_return_code=0)]. *)
Definition call_cli (command : string) (directory : Py.arg (option path))
    (max_hang max_time : Py.arg Z) (expected_return_code : Py.arg (option Z))
    (w : world) : run :=
  call_cli_body command
    (Py.or_default None directory)
    (Py.or_default 10000 max_hang)
    (Py.or_default 60000 max_time)
    (Py.or_default (Some 0) expected_return_code)
    w.

End Runner.

(** ** A child process under supervision

    The outcomes of [communicate] that a given child produces when the
    [k]-th wait times out at clock reading [tick k]. *)

Module Supervision.
Import Runner.

(** [timeout=2.0], line 56. *)
Definition poll_interval : Z := 2000.

Record child_process : Type := {
  stdout_by : Z -> string;   (* the bytes written to stdout up to a time *)
  stderr_by : Z -> string;
  exit : option (Z * Z);     (* when it exits and with which code, if ever *)
  eof : option Z             (* when both pipes are at end of file, if ever:
                                no sooner than every process that holds
                                them, a background job too, has let go *)
}.

(** [b''.join(chunks) if chunks else None]. *)
Definition captured (b : string) : option string :=
  if String.eqb b "" then None else Some b.

(** Text mode: [data.replace("\r\n", "\n").replace("\r", "\n")]. *)
Fixpoint translate_newlines (s : string) : string :=
  match s with
  | EmptyString => EmptyString
  | String c t =>
      if Ascii.eqb c "013"%char then
        match t with
        | String c' t' =>
            if Ascii.eqb c' "010"%char
            then String "010"%char (translate_newlines t')
            else String "010"%char (translate_newlines t)
        | EmptyString => String "010"%char EmptyString
        end
      else String c (translate_newlines t)
  end.

(** The end of [communicate] under [text=True], in a UTF-8 locale, once
    both pipes are read to their end and the child is waited for: what was
    read is decoded, and the call raises if it does not decode, the child
    reaped all the same. *)
Definition completed (stdout stderr : string) (returncode : Z) : communicated :=
  match Py.decode_utf8 stdout, Py.decode_utf8 stderr with
  | Some out, Some err =>
      Finished (translate_newlines out) (translate_newlines err) returncode
  | _, _ => Interrupted UnicodeDecodeError (Some returncode)
  end.

(** When [communicate] is free to return, and the return code it then sets:
    both pipes have reached their end and the child has exited. *)
Definition finished (c : child_process) : option (Z * Z) :=
  match exit c, eof c with
  | Some (t, returncode), Some u => Some (Z.max t u, returncode)
  | _, _ => None
  end.

Definition expired (c : child_process) (now : Z) : communicated :=
  TimeoutExpired (captured (stdout_by c now)) (captured (stderr_by c now)) now.

Definition observe (c : child_process) (tick : nat -> Z) (k : nat) : communicated :=
  match finished c with
  | Some (t, returncode) =>
      if t <=? tick k then completed (stdout_by c t) (stderr_by c t) returncode
      else expired c (tick k)
  | None => expired c (tick k)
  end.

Definition observations (c : child_process) (tick : nat -> Z) (n : nat)
    : list communicated :=
  map (observe c tick) (seq 0 n).

(** The outcomes from the [j]-th on, [m] of them. *)
Definition observations_from (c : child_process) (tick : nat -> Z) (j m : nat)
    : list communicated :=
  map (observe c tick) (seq j m).

Definition supervise (c : child_process) (tick : nat -> Z) (start spawned : Z)
    (n : nat) : world :=
  {| time_start := start;
     time_spawned := spawned;
     communicate := observations c tick n |}.

(** The clock: read at [start], then after the spawn, then after each wait,
    and a wait that times out lasts the poll interval at least. *)
Record schedule (start spawned : Z) (tick : nat -> Z) : Prop := {
  spawn_after_start : start <= spawned;
  first_tick : spawned + poll_interval <= tick 0%nat;
  next_tick : forall k, tick k + poll_interval <= tick (S k)
}.

Definition total_length (c : child_process) (t : Z) : nat :=
  (String.length (stdout_by c t) + String.length (stderr_by c t))%nat.

(** Output is only ever appended to. *)
Definition accumulates (c : child_process) : Prop :=
  forall t t', t <= t' ->
    (String.length (stdout_by c t) <= String.length (stdout_by c t'))%nat /\
    (String.length (stderr_by c t) <= String.length (stderr_by c t'))%nat.

Definition utf8_output (c : child_process) : Prop :=
  forall t, Py.utf8_valid (stdout_by c t) = true /\ Py.utf8_valid (stderr_by c t) = true.

Definition silent_until (c : child_process) (t : Z) : Prop :=
  forall t', t' <= t -> stdout_by c t' = "" /\ stderr_by c t' = "".

Definition running_at (c : child_process) (t : Z) : Prop :=
  match exit c with
  | Some (t', _) => t < t'
  | None => True
  end.

(** [communicate] cannot return yet: the child runs, or a pipe is held open. *)
Definition unfinished_at (c : child_process) (t : Z) : Prop :=
  match finished c with
  | Some (t', _) => t < t'
  | None => True
  end.

(** The locals as lines 46-51 set them, from the clock reading after the
    spawn. *)
Definition initial (spawned max_hang : Z) : locals :=
  {| hang_end := spawned + max_hang;
     last_stdout_len := 0;
     last_stderr_len := 0;
     printed_stdout_lines := 0;
     printed_stderr_lines := 0;
     done := false;
     process := Running;
     console := [] |}.

(** The child's output grows within every stretch of length [d] that ends
    by the [horizon]. *)
Definition lively_until (c : child_process) (spawned d horizon : Z) : Prop :=
  forall t, spawned <= t -> t + d <= horizon ->
    (total_length c t < total_length c (t + d))%nat.

(** The loop's patience at the [j]-th wait: it is still polling, and its
    hang deadline was set at a time [T], not after that wait, when the child
    had written at least what the loop has seen. *)
Definition patient (c : child_process) (tick : nat -> Z) (spawned max_hang : Z)
    (j : nat) (st : locals) : Prop :=
  done st = false /\
  exists T, spawned <= T /\ T <= tick j /\ hang_end st = T + max_hang /\
    (last_stdout_len st <= String.length (stdout_by c T))%nat /\
    (last_stderr_len st <= String.length (stderr_by c T))%nat.

(** What the loop has seen of a stream when the [k]-th wait begins: as
    much as the stream held when the wait before it timed out. *)
Definition seen_before (written_by : Z -> string) (tick : nat -> Z) (k : nat) : nat :=
  match k with
  | O => 0
  | S j => String.length (written_by (tick j))
  end.

(** The [k]-th wait, timing out, finds that a stream has grown. *)
Definition progress_at (c : child_process) (tick : nat -> Z) (k : nat) : bool :=
  (seen_before (stdout_by c) tick k <? String.length (stdout_by c (tick k)))%nat
  || (seen_before (stderr_by c) tick k <? String.length (stderr_by c (tick k)))%nat.

(** The hang deadline when the [k]-th wait times out: the hang limit after
    the last wait before it that found a stream grown, or after the spawn
    if none did. *)
Fixpoint hang_deadline (c : child_process) (tick : nat -> Z) (spawned max_hang : Z)
    (k : nat) : Z :=
  match k with
  | O => spawned + max_hang
  | S j =>
      if progress_at c tick j then tick j + max_hang
      else hang_deadline c tick spawned max_hang j
  end.

(** The [k]-th wait times out after the hang deadline and finds nothing new. *)
Definition found_hung (c : child_process) (tick : nat -> Z) (spawned max_hang : Z)
    (k : nat) : bool :=
  negb (progress_at c tick k) && (hang_deadline c tick spawned max_hang k <? tick k).

(** What the loop holds when the [k]-th wait begins, on a child whose
    streams only grow: it is still polling, its hang deadline is the one
    above, and it has seen of each stream what the wait before found. *)
Definition tracking (c : child_process) (tick : nat -> Z) (spawned max_hang : Z)
    (k : nat) (st : locals) : Prop :=
  done st = false /\
  hang_end st = hang_deadline c tick spawned max_hang k /\
  last_stdout_len st = seen_before (stdout_by c) tick k /\
  last_stderr_len st = seen_before (stderr_by c) tick k.

(** The lines of a captured stream that a line feed has ended. *)
Definition complete_lines (s : string) : list string := removelast (Py.split_nl s).

(** [echoes outs errs printed]: the printed lines are, in order, lines of
    [outs] under the stdout tag and lines of [errs] under the stderr tag;
    each stream keeps its order, no line is taken twice, any may be missing,
    and the two streams may be merged in any way. *)
Inductive echoes : list string -> list string -> list string -> Prop :=
| echoes_done : echoes [] [] []
| echoes_skip_stdout l outs errs p :
    echoes outs errs p -> echoes (l :: outs) errs p
| echoes_skip_stderr l outs errs p :
    echoes outs errs p -> echoes outs (l :: errs) p
| echoes_stdout l outs errs p :
    echoes outs errs p -> echoes (l :: outs) errs ((tag_stdout ++ l) :: p)
| echoes_stderr l outs errs p :
    echoes outs errs p -> echoes outs (l :: errs) ((tag_stderr ++ l) :: p).

(** What a stream holds at a time is the beginning of what it holds later. *)
Definition appends (c : child_process) : Prop :=
  forall t t', t <= t' ->
    (exists s, stdout_by c t' = stdout_by c t ++ s) /\
    (exists s, stderr_by c t' = stderr_by c t ++ s).

(** The child writes no carriage return, so that text mode changes nothing. *)
Definition no_carriage_return (c : child_process) : Prop :=
  forall t, translate_newlines (stdout_by c t) = stdout_by c t /\
            translate_newlines (stderr_by c t) = stderr_by c t.

(** What the loop has printed so far are lines that each stream had
    completed, all of them among the first [printed_stdout_lines] and
    [printed_stderr_lines] lines that the streams hold from [now] on. *)
Definition faithful (c : child_process) (now : Z) (st : locals) : Prop :=
  exists outs errs,
    echoes outs errs (console st) /\
    (List.length outs <= printed_stdout_lines st)%nat /\
    (List.length errs <= printed_stderr_lines st)%nat /\
    forall t, now <= t ->
      (exists more, complete_lines (stdout_by c t) = (outs ++ more)%list) /\
      (exists more, complete_lines (stderr_by c t) = (errs ++ more)%list).

(** C3, as the specification has it: a child that stays silent and alive
    for the hang limit and any margin beyond makes the call raise
    [CommandHung], given a total limit above the hang limit. *)
Definition hang_after_any_margin : Prop :=
  forall command max_hang max_time c tick start spawned margin,
    schedule start spawned tick ->
    0 < margin ->
    max_hang < max_time ->
    silent_until c (spawned + max_hang + margin) ->
    running_at c (spawned + max_hang + margin) ->
    exists n run_time,
      ended (call_cli command Py.Omitted (Py.Given max_hang) (Py.Given max_time) Py.Omitted
               (supervise c tick start spawned n))
      = Raised (CommandHung command max_hang run_time).

(** C5, as the specification has it: with this expected return code, any
    return code of a child that was reaped makes the call return. *)
Definition validation_skipped (expected : Py.arg (option Z)) : Prop :=
  forall command directory max_hang max_time w actual,
    child (call_cli command directory max_hang max_time expected w) = Exited actual ->
    ended (call_cli command directory max_hang max_time expected w) = Returned tt.

(** C4, as the specification has it: a child that never exits and whose
    output grows within every stretch of some length below the hang limit
    makes the call raise [CommandTimeout], whatever it writes. *)
Definition timeout_whatever_is_written : Prop :=
  forall command max_hang max_time c tick start spawned d,
    schedule start spawned tick ->
    exit c = None ->
    accumulates c ->
    d < max_hang ->
    (forall t, spawned <= t -> (total_length c t < total_length c (t + d))%nat) ->
    exists n,
      ended (call_cli command Py.Omitted (Py.Given max_hang) (Py.Given max_time) Py.Omitted
               (supervise c tick start spawned n))
      = Raised (CommandTimeout command max_time).

(** C6, as the specification has it: a child that finishes within the total
    limit, its output growing within every stretch of some length below the
    hang limit until then, with a return code other than the expected one
    makes the call raise [WrongReturnCode], whatever it writes. *)
Definition wrong_code_whatever_is_written : Prop :=
  forall command max_hang max_time c tick start spawned d e rc x,
    schedule start spawned tick ->
    accumulates c ->
    finished c = Some (e, rc) ->
    e <= spawned + max_time ->
    d < max_hang ->
    lively_until c spawned d e ->
    rc <> x ->
    exists n,
      ended (call_cli command Py.Omitted (Py.Given max_hang) (Py.Given max_time)
               (Py.Given (Some x)) (supervise c tick start spawned n))
      = Raised (WrongReturnCode command x rc).

End Supervision.

(** ** The file system and the TypeScript build step *)

Module Build.
Import Runner.
Local Open Scope list_scope.

(** A file system tree: every node has a modification time, a directory
    lists its entries in the order [os.scandir] gives them. *)
#[warnings="-register-all"]
Inductive node : Type :=
| File (mtime : Z)
| Dir (mtime : Z) (entries : list (string * node)).

Definition mtime_of (n : node) : Z :=
  match n with
  | File m => m
  | Dir m _ => m
  end.

Fixpoint lookup (name : string) (entries : list (string * node)) : option node :=
  match entries with
  | [] => None
  | (n, x) :: rest => if String.eqb n name then Some x else lookup name rest
  end.

(** The node a path leads to from the working directory [fs]. *)
Fixpoint resolve (fs : node) (p : path) : option node :=
  match p with
  | [] => Some fs
  | name :: rest =>
      match fs with
      | File _ => None
      | Dir _ entries =>
          match lookup name entries with
          | Some n => resolve n rest
          | None => None
          end
      end
  end.

(** [os.path.exists]. *)
Definition exists_ (fs : node) (p : path) : bool :=
  match resolve fs p with
  | Some _ => true
  | None => false
  end.

(** [os.path.getmtime]; [None] stands for [FileNotFoundError]. *)
Definition getmtime (fs : node) (p : path) : option Z :=
  option_map mtime_of (resolve fs p).

(** [os.path.join] of a directory and one name. *)
Definition join (directory : path) (name : string) : path :=
  (directory ++ [name])%list.

Definition is_dir (n : node) : bool :=
  match n with
  | File _ => false
  | Dir _ _ => true
  end.

Definition dirnames (entries : list (string * node)) : list string :=
  map fst (filter (fun e => is_dir (snd e)) entries).

Definition filenames (entries : list (string * node)) : list string :=
  map fst (filter (fun e => negb (is_dir (snd e))) entries).

(** [os.walk(top)], top down, from the node [top] names: the triple of a
    directory, then the walks of its subdirectories in listing order.
    Nothing is yielded for what is not a directory. *)
Fixpoint walk_from (top : path) (n : node) : list (path * list string * list string) :=
  match n with
  | File _ => []
  | Dir _ entries =>
      (top, dirnames entries, filenames entries)
      :: (fix below (l : list (string * node)) :=
            match l with
            | [] => []
            | (name, sub) :: rest => walk_from (join top name) sub ++ below rest
            end) entries
  end.

Definition walk (fs : node) (top : path) : list (path * list string * list string) :=
  match resolve fs top with
  | Some n => walk_from top n
  | None => []
  end.

(** Lines 119-120: the inner loop over the files of one directory. *)
Fixpoint stat_files (fs : node) (directory : path) (files : list string)
    (directory_changed_times : list Z) : exn + list Z :=
  match files with
  | [] => inr directory_changed_times
  | file :: rest =>
      match getmtime fs (join directory file) with
      | None => inl FileNotFoundError
      | Some m => stat_files fs directory rest (directory_changed_times ++ [m])
      end
  end.

(** Lines 118-120: the outer loop, which rebinds [directory] at every turn. *)
Fixpoint walk_loop (fs : node) (walked : list (path * list string * list string))
    (directory : path) (directory_changed_times : list Z) : exn + (path * list Z) :=
  match walked with
  | [] => inr (directory, directory_changed_times)
  | (d, _, files) :: rest =>
      match stat_files fs d files directory_changed_times with
      | inl e => inl e
      | inr times => walk_loop fs rest d times
      end
  end.

(** Lines 114-122: [should_build], and [directory] as the block leaves it. *)
Definition staleness (fs : node) (directory output_file : path) : exn + (bool * path) :=
  if exists_ fs output_file then
    match getmtime fs output_file with
    | None => inl FileNotFoundError
    | Some output_file_changed_time =>
        match walk_loop fs (walk fs directory) directory [] with
        | inl e => inl e
        | inr (directory, directory_changed_times) =>
            match Py.max directory_changed_times with
            | None => inl ValueError
            | Some directory_changed_time =>
                inr (directory_changed_time >? output_file_changed_time, directory)
            end
        end
    end
  else inr (true, directory).

Record build : Type := {
  outcome : ending bool;
  compiler : option run
}.

(** [build_typescript(directory, output_file)]; [w] is what the compiler
    run meets when there is one. *)
Definition build_typescript (fs : node) (directory output_file : path) (w : world)
    : build :=
  match staleness fs directory output_file with
  | inl e => {| outcome := Raised e; compiler := None |}
  | inr (should_build, directory) =>
      if should_build then
        let r := call_cli "tsc --pretty" (Py.Given (Some directory))
                   Py.Omitted Py.Omitted Py.Omitted w in
        {| outcome := match ended r with
                      | Polling => Polling
                      | Returned _ => Returned should_build
                      | Raised e => Raised e
                      end;
           compiler := Some r |}
      else {| outcome := Returned should_build; compiler := None |}
  end.

(** No two entries of a directory share a name. *)
Fixpoint distinct (names : list string) : bool :=
  match names with
  | [] => true
  | n :: rest => negb (existsb (String.eqb n) rest) && distinct rest
  end.

Fixpoint well_formed (n : node) : bool :=
  match n with
  | File _ => true
  | Dir _ entries =>
      distinct (map fst entries)
      && (fix each (l : list (string * node)) :=
            match l with
            | [] => true
            | (_, sub) :: rest => well_formed sub && each rest
            end) entries
  end.

(** A regular file with modification time [m] at the relative path [p]
    below [directory], at any depth. *)
Definition file_under (fs : node) (directory p : path) (m : Z) : Prop :=
  p <> [] /\ resolve fs (directory ++ p) = Some (File m).

(** [m] is the latest modification time among the files below [directory]. *)
Definition latest_under (fs : node) (directory : path) (m : Z) : Prop :=
  (exists p, file_under fs directory p m) /\
  (forall p m', file_under fs directory p m' -> m' <= m).

(** The directory of a triple that [os.walk] yields. *)
Definition dirpath (t : path * list string * list string) : path := fst (fst t).

(** The modification times of the files of one directory, in listing order. *)
Definition file_mtimes (entries : list (string * node)) : list Z :=
  map (fun e => mtime_of (snd e)) (filter (fun e => negb (is_dir (snd e))) entries).

(** The modification times of all files below a node, in the order the
    walk meets them. *)
Fixpoint mtimes_from (n : node) : list Z :=
  match n with
  | File _ => []
  | Dir _ entries =>
      file_mtimes entries
      ++ (fix below (l : list (string * node)) :=
            match l with
            | [] => []
            | (_, sub) :: rest => mtimes_from sub ++ below rest
            end) entries
  end.

End Build.

(** ** Downloads *)

Module Fetch.
Import Build.
Local Open Scope list_scope.

(** What [download] can raise: an error of the operating system when the
    file is opened, or one of [urllib]'s. *)
Inductive error : Type :=
| Os (e : exn)
| NotADirectoryError
| IsADirectoryError
| URLError
| ContentTooShortError.

(** What becomes of a request: [urlopen] raises, or the body stops short of
    its announced length after the connection was made, or all of it comes. *)
Inductive response : Type :=
| Unreachable
| Truncated
| Complete.

Fixpoint replace_entry (name : string) (n : node) (entries : list (string * node))
    : list (string * node) :=
  match entries with
  | [] => []
  | (x, y) :: rest =>
      if String.eqb x name then (x, n) :: rest else (x, y) :: replace_entry name n rest
  end.

(** [open(path, "wb")] and the writes that follow, at clock reading [now]:
    an existing file is cut to nothing and written; a missing one is made
    in its directory, which must exist, and whose modification time changes
    with the new entry. *)
Fixpoint open_wb (fs : node) (p : path) (now : Z) : error + node :=
  match p with
  | [] =>
      match fs with
      | File _ => inr (File now)
      | Dir _ _ => inl IsADirectoryError
      end
  | name :: rest =>
      match fs with
      | File _ => inl NotADirectoryError
      | Dir m entries =>
          match lookup name entries with
          | Some sub =>
              match open_wb sub rest now with
              | inl e => inl e
              | inr sub' => inr (Dir m (replace_entry name sub' entries))
              end
          | None =>
              match rest with
              | [] => inr (Dir now (entries ++ [(name, File now)]))
              | _ :: _ => inl (Os FileNotFoundError)
              end
          end
      end
  end.

Record downloaded : Type := {
  files : node;
  requests : list string;
  output : string;
  raised : option error
}.

(** [urllib.request.urlretrieve(url, destination)]: the request first, then
    the file is opened, then the body is copied into it. *)
Definition urlretrieve (net : string -> response) (fs : node) (url : string)
    (destination : path) (now : Z) : node * option error :=
  match net url with
  | Unreachable => (fs, Some URLError)
  | Truncated =>
      match open_wb fs destination now with
      | inl e => (fs, Some e)
      | inr fs' => (fs', Some ContentTooShortError)
      end
  | Complete =>
      match open_wb fs destination now with
      | inl e => (fs, Some e)
      | inr fs' => (fs', None)
      end
  end.

(** [download(url, destination)], lines 129-134. *)
Definition download (net : string -> response) (fs : node) (url : string)
    (destination : path) (now : Z) : downloaded :=
  if negb (exists_ fs destination) then
    let out := ("Downloading " ++ url ++ " ...")%string in
    match urlretrieve net fs url destination now with
    | (fs', Some e) =>
        {| files := fs'; requests := [url]; output := out; raised := Some e |}
    | (fs', None) =>
        {| files := fs';
           requests := [url];
           output := (out ++ " Done!" ++ String "010"%char "")%string;
           raised := None |}
    end
  else {| files := fs; requests := []; output := ""; raised := None |}.

End Fetch.

(** ** Sample children and file systems *)

Module Samples.
Import Runner Supervision Build.

Definition LF : string := String "010"%char "".

(** Waits time out at 2001, 4002, 6003, ... after a start at 0 and a spawn
    at 1. *)
Definition steady (k : nat) : Z := 2001 * (Z.of_nat k + 1).

(** [echo a; sleep 3; echo b]: a first line at 100, a second one at 3000,
    when the child exits with code 0. *)
Definition two_lines : child_process :=
  {| stdout_by := fun t =>
       if t <? 100 then "" else if t <? 3000 then "a" ++ LF else "a" ++ LF ++ "b" ++ LF;
     stderr_by := fun _ => "";
     exit := Some (3000, 0);
     eof := Some 3000 |}.

(** [printf hello]: one line without a line feed, then exit code 0 at 500. *)
Definition unterminated : child_process :=
  {| stdout_by := fun t => if t <? 100 then "" else "hello";
     stderr_by := fun _ => "";
     exit := Some (500, 0);
     eof := Some 500 |}.

(** [echo e >&2; echo o]: a line on stderr at 100, then one on stdout at
    200, exit code 0 at 300. *)
Definition crossed : child_process :=
  {| stdout_by := fun t => if t <? 200 then "" else "o" ++ LF;
     stderr_by := fun t => if t <? 100 then "" else "e" ++ LF;
     exit := Some (300, 0);
     eof := Some 300 |}.

(** [sleep 3.5]: no output, exit code 0 at 3500. *)
Definition short_sleep : child_process :=
  {| stdout_by := fun _ => "";
     stderr_by := fun _ => "";
     exit := Some (3500, 0);
     eof := Some 3500 |}.

(** [sleep 3; echo o; echo e >&2]: nothing for three seconds, then a line
    on each stream, exit code 0 at 3100. *)
Definition late_words : child_process :=
  {| stdout_by := fun t => if t <? 3000 then "" else "o" ++ LF;
     stderr_by := fun t => if t <? 3050 then "" else "e" ++ LF;
     exit := Some (3100, 0);
     eof := Some 3100 |}.

(** [sleep 20]: no output, exit code 0 at 20000. *)
Definition long_sleep : child_process :=
  {| stdout_by := fun _ => "";
     stderr_by := fun _ => "";
     exit := Some (20000, 0);
     eof := Some 20000 |}.

(** [false]: no output, exit code 2 at 500. *)
Definition failing : child_process :=
  {| stdout_by := fun _ => "";
     stderr_by := fun _ => "";
     exit := Some (500, 2);
     eof := Some 500 |}.

(** [echo a; sleep 60]: a line at 100, then nothing more; the child is still
    asleep when the samples end. *)
Definition stalled : child_process :=
  {| stdout_by := fun t => if t <? 100 then "" else "a" ++ LF;
     stderr_by := fun _ => "";
     exit := None;
     eof := None |}.

(** A byte that begins no UTF-8 sequence. *)
Definition stray : string := String (ascii_of_N 0x89) "".

(** [printf '\211'; exit 2]: a stray byte at 100, exit code 2 at 500. *)
Definition garbled : child_process :=
  {| stdout_by := fun t => if t <? 100 then "" else stray;
     stderr_by := fun _ => "";
     exit := Some (500, 2);
     eof := Some 500 |}.

(** [sleep 3; printf '\211'; exit 2]: nothing for three seconds, then a
    stray byte, exit code 2 at 3100. *)
Definition late_garbled : child_process :=
  {| stdout_by := fun t => if t <? 3000 then "" else stray;
     stderr_by := fun _ => "";
     exit := Some (3100, 2);
     eof := Some 3100 |}.

Definition CR : string := String "013"%char "".

(** [printf 'a\rb\rc\n'; sleep 3; echo d]: a line with two carriage returns
    in it at 100, another line at 3000, when the child exits with code 0. *)
Definition carriage : child_process :=
  {| stdout_by := fun t =>
       if t <? 100 then ""
       else if t <? 3000 then "a" ++ CR ++ "b" ++ CR ++ "c" ++ LF
       else "a" ++ CR ++ "b" ++ CR ++ "c" ++ LF ++ "d" ++ LF;
     stderr_by := fun _ => "";
     exit := Some (3000, 0);
     eof := Some 3000 |}.

Fixpoint dots (n : nat) : string :=
  match n with
  | O => ""
  | S n => String "."%char (dots n)
  end.

(** [while true; do printf .; sleep 1; done]: a dot every second, for ever. *)
Definition chatter : child_process :=
  {| stdout_by := fun t => dots (Z.to_nat (t / 1000));
     stderr_by := fun _ => "";
     exit := None;
     eof := None |}.

Fixpoint strays (n : nat) : string :=
  match n with
  | O => ""
  | S n => String (ascii_of_N 0x89) (strays n)
  end.

(** A tool that reports its progress in another encoding: a stray byte
    every second, for ever. *)
Definition noise : child_process :=
  {| stdout_by := fun t => strays (Z.to_nat (t / 1000));
     stderr_by := fun _ => "";
     exit := None;
     eof := None |}.

(** A working directory with the script's layout: sources in
    [typescript], two levels deep, the compiled file in [site], and a
    [tests] directory with no file in it yet. *)
Definition project : node :=
  Dir 0
    [("site", Dir 5 [("typescript.js", File 100)]);
     ("typescript",
      Dir 1 [("a.ts", File 50);
             ("sub", Dir 2 [("b.ts", File 120); ("deep", Dir 3 [])]);
             ("z", Dir 4 [("c.ts", File 10)])]);
     ("tests", Dir 6 [("empty", Dir 7 [])])].

End Samples.

(** * Properties *)

(** ** The loop and the child process *)

Module RunnerFacts.
Import Runner.

Lemma same_child_refl st : same_child st st.
Proof. split; reflexivity. Qed.

Lemma same_child_trans st1 st2 st3 :
  same_child st1 st2 -> same_child st2 st3 -> same_child st1 st3.
Proof. intros [H1 H2] [H3 H4]; split; congruence. Qed.

Lemma print_all_same_child lines st : same_child st (print_all lines st).
Proof.
  unfold print_all. revert st.
  induction lines as [|l lines IH]; intros st; simpl.
  - apply same_child_refl.
  - eapply same_child_trans; [|apply IH]. split; reflexivity.
Qed.

Lemma echo_stdout_same_child captured st :
  same_child st (state_of (echo_stdout captured st)).
Proof.
  unfold echo_stdout. destruct captured as [b|]; [|apply same_child_refl].
  destruct (Py.decode_utf8 b); [|apply same_child_refl].
  simpl. apply (print_all_same_child _ st).
Qed.

Lemma echo_stderr_same_child captured st :
  same_child st (state_of (echo_stderr captured st)).
Proof.
  unfold echo_stderr. destruct captured as [b|]; [|apply same_child_refl].
  destruct (Py.decode_utf8 b); [|apply same_child_refl].
  simpl. apply (print_all_same_child _ st).
Qed.

Lemma bind_same_child st f k :
  same_child st (state_of f) ->
  (forall st', same_child st' (state_of (k st'))) ->
  same_child st (state_of (f >>= k)).
Proof.
  destruct f; simpl; auto.
  intros H Hk. eapply same_child_trans; [exact H|apply Hk].
Qed.

Lemma check_deadlines_same_child command max_hang max_time start absolute_end u now st :
  same_child st
    (state_of (check_deadlines command max_hang max_time start absolute_end u now st)).
Proof.
  unfold check_deadlines.
  destruct u; simpl.
  - destruct (absolute_end <? now); split; reflexivity.
  - destruct (hang_end st <? now); simpl; [apply same_child_refl|].
    destruct (absolute_end <? now); apply same_child_refl.
Qed.

Lemma iteration_not_pending command max_hang max_time start absolute_end r st st' :
  iteration command max_hang max_time start absolute_end r st <> Pending st'.
Proof.
  destruct r as [out err rc|out err now|e reaped]; simpl; try discriminate.
  unfold echo_stdout, echo_stderr, check_deadlines.
  repeat match goal with
         | |- context [match ?x with _ => _ end] => destruct x; simpl
         end; discriminate.
Qed.

(** A turn of the loop leaves the child alone, or reaps it: on a return of
    [communicate], or on an exception that [communicate] raises after its
    wait for the child. *)
Lemma iteration_child command max_hang max_time start absolute_end r st :
  let f := iteration command max_hang max_time start absolute_end r st in
  same_child st (state_of f) \/
  (exists st' rc, f = Continue st' /\ done st' = true /\ process st' = Exited rc) \/
  (exists e st' rc,
     f = Throw e st' /\ r = Interrupted e (Some rc) /\
     done st' = done st /\ process st' = Exited rc).
Proof.
  destruct r as [out err rc|out err now|e [rc|]]; simpl.
  - right; left. eexists _, rc. repeat split.
  - left. apply bind_same_child.
    + destruct (updated out _); [apply echo_stdout_same_child|apply same_child_refl].
    + intros st1. apply bind_same_child.
      * destruct (updated err _); [apply echo_stderr_same_child|apply same_child_refl].
      * intros st2. apply check_deadlines_same_child.
  - right; right. eexists e, _, rc. repeat split.
  - left. apply same_child_refl.
Qed.

Lemma same_child_tracked st st' :
  same_child st st' -> child_tracked st -> child_tracked st'.
Proof. unfold child_tracked. intros [-> ->]. auto. Qed.

Lemma left_tracked_cons r rs f : left_tracked rs f -> left_tracked (r :: rs) f.
Proof.
  destruct f as [st|e st|st]; simpl; auto.
  intros [Hd [H|(rc & Hin & H)]]; split; auto. right. exists rc. auto.
Qed.

Lemma poll_loop_child_tracked command max_hang max_time start absolute_end rs :
  forall st, child_tracked st ->
    left_tracked rs (poll_loop command max_hang max_time start absolute_end rs st).
Proof.
  induction rs as [|r rs IH]; intros st Hst; simpl.
  - destruct (done st); exact Hst.
  - destruct (done st) eqn:Hd; [exact Hst|].
    destruct (iteration_child command max_hang max_time start absolute_end r st)
      as [H|[H|H]].
    + destruct (iteration _ _ _ _ _ r st) as [st'|e st'|st']; simpl in *.
      * apply left_tracked_cons, IH. eapply same_child_tracked; eauto.
      * pose proof (same_child_tracked _ _ H Hst) as Ht. unfold child_tracked in Ht.
        destruct H as [H1 H2]. rewrite H1, Hd in *. auto.
      * eapply same_child_tracked; eauto.
    + destruct H as (st' & rc & -> & Hd' & Hp). simpl.
      apply left_tracked_cons, IH. unfold child_tracked. rewrite Hd'. eauto.
    + destruct H as (e & st' & rc & -> & -> & Hd' & Hp). simpl.
      split; [congruence|]. right. exists rc. auto.
Qed.

(** The loop goes on exactly as long as the recorded outcomes allow: more
    of them change nothing once it has left. *)
Lemma poll_loop_app command max_hang max_time start absolute_end rs more :
  forall st,
    poll_loop command max_hang max_time start absolute_end (rs ++ more) st =
    match poll_loop command max_hang max_time start absolute_end rs st with
    | Pending st' => poll_loop command max_hang max_time start absolute_end more st'
    | f => f
    end.
Proof.
  induction rs as [|r rs IH]; intros st; simpl.
  - destruct (done st) eqn:Hd; [|reflexivity].
    destruct more; simpl; now rewrite Hd.
  - destruct (done st) eqn:Hd; [reflexivity|].
    destruct (iteration command max_hang max_time start absolute_end r st) as [st'|e st'|st'] eqn:Hi;
      simpl.
    + apply IH.
    + reflexivity.
    + now apply iteration_not_pending in Hi.
Qed.

Lemma poll_loop_pending_not_done command max_hang max_time start absolute_end rs :
  forall st st',
    poll_loop command max_hang max_time start absolute_end rs st = Pending st' ->
    done st' = false.
Proof.
  induction rs as [|r rs IH]; intros st st'; simpl.
  - destruct (done st) eqn:Hd; [discriminate|]. now intros [= <-].
  - destruct (done st) eqn:Hd; [discriminate|].
    destruct (iteration _ _ _ _ _ r st) as [s|e s|s] eqn:Hi; simpl; try discriminate.
    + apply IH.
    + now apply iteration_not_pending in Hi.
Qed.

Lemma poll_loop_continue_done command max_hang max_time start absolute_end rs :
  forall st st',
    poll_loop command max_hang max_time start absolute_end rs st = Continue st' ->
    done st' = true.
Proof.
  induction rs as [|r rs IH]; intros st st'; simpl.
  - destruct (done st) eqn:Hd; [|discriminate]. now intros [= <-].
  - destruct (done st) eqn:Hd; [now intros [= <-]|].
    destruct (iteration _ _ _ _ _ r st) as [s|e s|s]; simpl; try discriminate.
    apply IH.
Qed.

(** The ways a call can be found: still polling with the child running;
    ended by an exception out of the loop, the child killed, unless the
    exception is one [communicate] raised after its wait, the child reaped;
    or past the loop, the child reaped, and then the return code decides. *)
Lemma call_cli_body_cases command directory max_hang max_time expected w :
  let r := call_cli_body command directory max_hang max_time expected w in
  (ended r = Polling /\ child r = Running) \/
  (exists e, ended r = Raised e /\
     (child r = Killed \/
      exists rc, In (Interrupted e (Some rc)) (communicate w) /\ child r = Exited rc)) \/
  (exists rc, child r = Exited rc /\
     ended r = match expected with
               | Some x => if rc =? x then Returned tt
                           else Raised (WrongReturnCode command x rc)
               | None => Returned tt
               end).
Proof.
  unfold call_cli_body.
  set (st0 := {| hang_end := time_spawned w + max_hang |}).
  assert (H0 : child_tracked st0) by reflexivity.
  apply (poll_loop_child_tracked command max_hang max_time (time_start w)
           (time_spawned w + max_time) (communicate w)) in H0.
  destruct (poll_loop _ _ _ _ _ (communicate w) st0) as [st|e st|st] eqn:Hl; simpl in *.
  - right; right.
    apply poll_loop_continue_done in Hl.
    unfold child_tracked in H0. rewrite Hl in H0. destruct H0 as [rc Hrc].
    exists rc. unfold check_return_code. rewrite Hrc.
    destruct expected as [x|]; simpl.
    + destruct (rc =? x); simpl; unfold finally; simpl; rewrite Hl; auto.
    + unfold finally. rewrite Hl. auto.
  - right; left. exists e. split; [reflexivity|].
    destruct H0 as [Hd [Hp|(rc & Hin & Hp)]]; unfold finally; simpl; rewrite Hd, Hp; simpl.
    + now left.
    + right. eauto.
  - left.
    apply poll_loop_pending_not_done in Hl.
    unfold child_tracked in H0. rewrite Hl in H0. auto.
Qed.

(** An exception that is not the wrong return code, and that [communicate]
    did not raise after its wait, finds the child running: it is killed. *)
Lemma ended_raised_child command directory max_hang max_time expected w e :
  ended (call_cli_body command directory max_hang max_time expected w) = Raised e ->
  (forall c x a, e <> WrongReturnCode c x a) ->
  (forall rc, ~ In (Interrupted e (Some rc)) (communicate w)) ->
  child (call_cli_body command directory max_hang max_time expected w) = Killed.
Proof.
  intros He Hw Hi.
  destruct (call_cli_body_cases command directory max_hang max_time expected w)
    as [[H _]|[(e' & He' & [Hk|(rc & Hin & _)])|(rc & _ & H)]]; simpl in *.
  - congruence.
  - exact Hk.
  - rewrite He in He'. injection He' as <-. now destruct (Hi rc).
  - rewrite H in He. destruct expected as [x|]; [|discriminate].
    destruct (rc =? x); [discriminate|].
    injection He as <-. now destruct (Hw command x rc).
Qed.

Lemma ended_polling_child command directory max_hang max_time expected w :
  ended (call_cli_body command directory max_hang max_time expected w) = Polling ->
  child (call_cli_body command directory max_hang max_time expected w) = Running.
Proof.
  intros He.
  destruct (call_cli_body_cases command directory max_hang max_time expected w)
    as [[_ H]|[(e' & H & _)|(rc & _ & H)]]; simpl in *.
  - exact H.
  - congruence.
  - rewrite H in He. destruct expected as [x|]; [|discriminate].
    destruct (rc =? x); discriminate.
Qed.

End RunnerFacts.

(** ** A supervised child: what more outcomes of [communicate] change *)

Module SupervisionFacts.
Import Runner Supervision RunnerFacts.

Lemma observations_split c tick n m :
  observations c tick (n + m) = (observations c tick n ++ observations_from c tick n m)%list.
Proof.
  unfold observations, observations_from.
  now rewrite seq_app, map_app.
Qed.

Lemma observations_from_S c tick j m :
  observations_from c tick j (S m) = observe c tick j :: observations_from c tick (S j) m.
Proof. reflexivity. Qed.

(** Once a call has ended, recording more of what the child would have done
    makes no difference. *)
Lemma call_cli_body_settled command directory max_hang max_time expected c tick start spawned n :
  ended (call_cli_body command directory max_hang max_time expected
           (supervise c tick start spawned n)) <> Polling ->
  forall m, (n <= m)%nat ->
    call_cli_body command directory max_hang max_time expected
      (supervise c tick start spawned m) =
    call_cli_body command directory max_hang max_time expected
      (supervise c tick start spawned n).
Proof.
  intros Hn m Hm.
  replace m with (n + (m - n))%nat by lia.
  unfold call_cli_body in *. simpl in *.
  rewrite observations_split, poll_loop_app.
  match goal with
  | |- context [match ?f with _ => _ end] => destruct f eqn:Hf
  end; try reflexivity.
  exfalso. apply Hn. reflexivity.
Qed.

Lemma call_cli_body_supervise command directory max_hang max_time expected c tick start spawned n :
  call_cli_body command directory max_hang max_time expected
    (supervise c tick start spawned n) =
  unwind command directory
    (poll_loop command max_hang max_time start (spawned + max_time)
       (observations_from c tick 0 n) (initial spawned max_hang)
     >>= check_return_code command expected).
Proof. reflexivity. Qed.

Lemma tick_mono start spawned tick :
  schedule start spawned tick ->
  forall j k, (j <= k)%nat -> tick j <= tick k.
Proof.
  intros Hs j k Hjk. induction Hjk as [|k _ IH]; [lia|].
  pose proof (next_tick _ _ _ Hs k). unfold poll_interval in *. lia.
Qed.

Lemma tick_lower_bound start spawned tick :
  schedule start spawned tick ->
  forall k, spawned + poll_interval * (Z.of_nat k + 1) <= tick k.
Proof.
  intros Hs k. induction k as [|k IH].
  - pose proof (first_tick _ _ _ Hs). unfold poll_interval in *. lia.
  - pose proof (next_tick _ _ _ Hs k). unfold poll_interval in *. lia.
Qed.

Lemma running_unfinished c t : running_at c t -> unfinished_at c t.
Proof.
  unfold running_at, unfinished_at, finished.
  destruct (exit c) as [[t' rc]|]; [|auto]. destruct (eof c); [lia|auto].
Qed.

Lemma unfinished_at_earlier c t t' : t' <= t -> unfinished_at c t -> unfinished_at c t'.
Proof.
  unfold unfinished_at. destruct (finished c) as [[e rc]|]; [lia|auto].
Qed.

Lemma observe_unfinished c tick k :
  unfinished_at c (tick k) -> observe c tick k = expired c (tick k).
Proof.
  unfold unfinished_at, observe. destruct (finished c) as [[t rc]|]; [|reflexivity].
  intros H. destruct (Z.leb_spec t (tick k)); [lia|reflexivity].
Qed.

(** What [communicate] raises on a supervised child after its wait is a
    decoding error. *)
Lemma observed_interruption c tick n e rc :
  In (Interrupted e (Some rc)) (observations c tick n) -> e = UnicodeDecodeError.
Proof.
  unfold observations. intros H. apply in_map_iff in H as (k & H & _).
  unfold observe, completed, expired in H.
  destruct (finished c) as [[t rc']|]; [|discriminate].
  destruct (t <=? tick k); [|discriminate].
  destruct (Py.decode_utf8 (stdout_by c t)); [|congruence].
  destruct (Py.decode_utf8 (stderr_by c t)); [discriminate|congruence].
Qed.

(** One of the runner's own two timing exceptions finds a supervised child
    unreaped, and the child is killed. *)
Lemma deadline_raised_child command directory max_hang max_time expected
    c tick start spawned n e :
  ended (call_cli_body command directory max_hang max_time expected
           (supervise c tick start spawned n)) = Raised e ->
  (forall c x a, e <> WrongReturnCode c x a) ->
  e <> UnicodeDecodeError ->
  child (call_cli_body command directory max_hang max_time expected
           (supervise c tick start spawned n)) = Killed.
Proof.
  intros He Hw Hu. apply (ended_raised_child _ _ _ _ _ _ e He Hw).
  intros rc Hin. apply Hu. exact (observed_interruption c tick n e rc Hin).
Qed.

Lemma running_at_earlier c t t' : t' <= t -> running_at c t -> running_at c t'.
Proof.
  unfold running_at. destruct (exit c) as [[e rc]|]; [lia|auto].
Qed.

Lemma print_all_eq lines st :
  print_all lines st =
  {| hang_end := hang_end st;
     last_stdout_len := last_stdout_len st;
     last_stderr_len := last_stderr_len st;
     printed_stdout_lines := printed_stdout_lines st;
     printed_stderr_lines := printed_stderr_lines st;
     done := done st;
     process := process st;
     console := console st ++ lines |}.
Proof.
  unfold print_all. revert st.
  induction lines as [|l lines IH]; intros st; simpl.
  - rewrite app_nil_r. now destruct st.
  - rewrite IH. simpl. now rewrite <- app_assoc.
Qed.

Lemma updated_captured b last :
  updated (captured b) last = (last <? String.length b)%nat.
Proof.
  destruct b as [|a b]; simpl.
  - now destruct last.
  - reflexivity.
Qed.

Lemma echo_stdout_step st b :
  Py.utf8_valid b = true ->
  exists st1,
    (if updated (captured b) (last_stdout_len st) then echo_stdout (captured b) st
     else Continue st) = Continue st1 /\
    hang_end st1 = hang_end st /\ done st1 = done st /\
    last_stderr_len st1 = last_stderr_len st /\
    (if updated (captured b) (last_stdout_len st)
     then last_stdout_len st1 = String.length b
     else last_stdout_len st1 = last_stdout_len st /\
          (String.length b <= last_stdout_len st)%nat).
Proof.
  intros Hb. rewrite updated_captured.
  destruct (Nat.ltb_spec (last_stdout_len st) (String.length b)) as [Hlt|Hge].
  - destruct b as [|a b]; [simpl in Hlt; lia|].
    assert (Hd : Py.decode_utf8 (String a b) = Some (String a b))
      by (unfold Py.decode_utf8; now rewrite Hb).
    change (captured (String a b)) with (Some (String a b)).
    unfold echo_stdout. rewrite Hd, print_all_eq. eexists; split; [reflexivity|]. simpl. repeat split; reflexivity.
  - exists st. repeat split; auto.
Qed.

Lemma echo_stderr_step st b :
  Py.utf8_valid b = true ->
  exists st1,
    (if updated (captured b) (last_stderr_len st) then echo_stderr (captured b) st
     else Continue st) = Continue st1 /\
    hang_end st1 = hang_end st /\ done st1 = done st /\
    last_stdout_len st1 = last_stdout_len st /\
    (if updated (captured b) (last_stderr_len st)
     then last_stderr_len st1 = String.length b
     else last_stderr_len st1 = last_stderr_len st /\
          (String.length b <= last_stderr_len st)%nat).
Proof.
  intros Hb. rewrite updated_captured.
  destruct (Nat.ltb_spec (last_stderr_len st) (String.length b)) as [Hlt|Hge].
  - destruct b as [|a b]; [simpl in Hlt; lia|].
    assert (Hd : Py.decode_utf8 (String a b) = Some (String a b))
      by (unfold Py.decode_utf8; now rewrite Hb).
    change (captured (String a b)) with (Some (String a b)).
    unfold echo_stderr. rewrite Hd, print_all_eq.
    eexists; split; [reflexivity|]. simpl. repeat split; reflexivity.
  - exists st. repeat split; auto.
Qed.

Section Paced.

Variables (command : string) (max_hang max_time start spawned : Z).
Variables (c : child_process) (tick : nat -> Z) (d : Z).
Hypothesis sched : schedule start spawned tick.
Hypothesis acc : accumulates c.
Hypothesis utf : utf8_output c.
Hypothesis pace : d < max_hang.

(** A wait that times out while the child runs and has kept its pace finds
    the loop patient still; past the total limit it ends it. *)
Lemma patient_step j st :
  unfinished_at c (tick j) ->
  lively_until c spawned d (tick j) ->
  patient c tick spawned max_hang j st ->
  exists st',
    iteration command max_hang max_time start (spawned + max_time) (observe c tick j) st
    = (if spawned + max_time <? tick j
       then Throw (CommandTimeout command max_time) st'
       else Continue st') /\
    patient c tick spawned max_hang (S j) st'.
Proof.
  intros Hrun Hlive (Hd & T & HT0 & HT & Hh & Ho & He).
  rewrite (observe_unfinished c tick j Hrun). unfold expired. cbn [iteration].
  destruct (utf (tick j)) as [Uo Ue].
  destruct (acc T (tick j) HT) as [Ao Ae].
  pose proof (next_tick _ _ _ sched j) as Hn. unfold poll_interval in Hn.
  destruct (echo_stdout_step st _ Uo) as (st1 & -> & Hh1 & Hd1 & He1 & Ho1).
  cbn [bind].
  rewrite <- He1.
  destruct (echo_stderr_step st1 _ Ue) as (st2 & -> & Hh2 & Hd2 & Ho2 & He2).
  cbn [bind]. rewrite He1 in *.
  unfold check_deadlines.
  destruct (updated (captured (stdout_by c (tick j))) (last_stdout_len st)) eqn:U1;
    destruct (updated (captured (stderr_by c (tick j))) (last_stderr_len st)) eqn:U2;
    cbn [orb bind].
  1-3: exists (set_hang_end (tick j + max_hang) st2); split;
    [destruct (spawned + max_time <? tick j); reflexivity|];
    split; [simpl; congruence|];
    exists (tick j); simpl; repeat split; try lia.
  - destruct Ho1 as [Ho1 Lo], He2 as [He2 Le].
    assert (Hno : tick j <= hang_end st2).
    { destruct (Z_lt_le_dec (hang_end st2) (tick j)) as [Hlt|]; [exfalso|lia].
      assert (HTd : T + d <= tick j) by lia.
      destruct (acc (T + d) (tick j) HTd) as [Bo Be].
      pose proof (Hlive T HT0 HTd) as Hl. unfold total_length in Hl. lia. }
    destruct (Z.ltb_spec (hang_end st2) (tick j)); [lia|]. cbn [bind].
    exists st2; split; [destruct (spawned + max_time <? tick j); reflexivity|].
    split; [congruence|].
    exists T; repeat split; try lia.
Qed.

Lemma patient_polls m :
  forall j st,
    patient c tick spawned max_hang j st ->
    (forall i, (j <= i < j + m)%nat ->
       unfinished_at c (tick i) /\ lively_until c spawned d (tick i) /\
       tick i <= spawned + max_time) ->
    exists st',
      poll_loop command max_hang max_time start (spawned + max_time)
        (observations_from c tick j m) st = Pending st' /\
      patient c tick spawned max_hang (j + m) st'.
Proof.
  induction m as [|m IH]; intros j st Hp Hi.
  - exists st. rewrite Nat.add_0_r. split; [|exact Hp].
    simpl. now rewrite (proj1 Hp).
  - rewrite observations_from_S. cbn [poll_loop]. rewrite (proj1 Hp).
    destruct (Hi j ltac:(lia)) as (Hrun & Hlive & Hle).
    destruct (patient_step j st Hrun Hlive Hp) as (st1 & -> & Hp1).
    destruct (Z.ltb_spec (spawned + max_time) (tick j)); [lia|].
    cbn [bind].
    destruct (IH (S j) st1 Hp1) as (st' & Hl & Hp'); [intros; apply Hi; lia|].
    exists st'. split; [exact Hl|]. now replace (j + S m)%nat with (S j + m)%nat by lia.
Qed.

Lemma patient_timeout k st :
  unfinished_at c (tick k) ->
  lively_until c spawned d (tick k) ->
  patient c tick spawned max_hang k st ->
  spawned + max_time < tick k ->
  exists st',
    poll_loop command max_hang max_time start (spawned + max_time)
      (observations_from c tick k 1) st
    = Throw (CommandTimeout command max_time) st'.
Proof.
  intros Hrun Hlive Hp Hk. rewrite observations_from_S. cbn [poll_loop]. rewrite (proj1 Hp).
  destruct (patient_step k st Hrun Hlive Hp) as (st1 & -> & _).
  destruct (Z.ltb_spec (spawned + max_time) (tick k)); [|lia].
  exists st1. reflexivity.
Qed.

Lemma first_tick_past (limit : Z) :
  exists k, limit < tick k /\ forall j, (j < k)%nat -> tick j <= limit.
Proof.
  assert (H : forall K, limit < tick K ->
            exists k, limit < tick k /\ forall j, (j < k)%nat -> tick j <= limit).
  { induction K as [|K IH]; intros HK.
    - exists 0%nat. split; [exact HK|]. intros j Hj. lia.
    - destruct (Z_lt_le_dec limit (tick K)) as [Hlt|Hle]; [auto|].
      exists (S K). split; [exact HK|]. intros j Hj.
      pose proof (tick_mono _ _ _ sched j K ltac:(lia)). lia. }
  apply (H (Z.to_nat (limit - spawned))).
  pose proof (tick_lower_bound _ _ _ sched (Z.to_nat (limit - spawned))).
  unfold poll_interval in *. lia.
Qed.

Lemma patient_initial : patient c tick spawned max_hang 0 (initial spawned max_hang).
Proof.
  split; [reflexivity|]. exists spawned.
  pose proof (first_tick _ _ _ sched). unfold poll_interval in *.
  simpl. repeat split; lia.
Qed.

End Paced.

Section Tracked.

Variables (command : string) (max_hang max_time start spawned : Z).
Variables (c : child_process) (tick : nat -> Z).
Hypothesis sched : schedule start spawned tick.
Hypothesis acc : accumulates c.
Hypothesis utf : utf8_output c.

Lemma seen_before_le j :
  (seen_before (stdout_by c) tick j <= String.length (stdout_by c (tick j)))%nat /\
  (seen_before (stderr_by c) tick j <= String.length (stderr_by c (tick j)))%nat.
Proof.
  destruct j as [|j]; simpl; [lia|].
  apply acc. pose proof (next_tick _ _ _ sched j). unfold poll_interval in *. lia.
Qed.

(** A wait that times out: the hang check first, then the total limit. *)
Lemma tracking_step j st :
  unfinished_at c (tick j) ->
  tracking c tick spawned max_hang j st ->
  exists st',
    iteration command max_hang max_time start (spawned + max_time) (observe c tick j) st
    = (if found_hung c tick spawned max_hang j
       then Throw (CommandHung command max_hang (tick j - start)) st'
       else if spawned + max_time <? tick j
            then Throw (CommandTimeout command max_time) st'
            else Continue st') /\
    tracking c tick spawned max_hang (S j) st'.
Proof.
  intros Hrun (Hd & Hh & Ho & He).
  rewrite (observe_unfinished c tick j Hrun). unfold expired. cbn [iteration].
  destruct (utf (tick j)) as [Uo Ue].
  destruct (seen_before_le j) as [Lo Le].
  destruct (echo_stdout_step st _ Uo) as (st1 & -> & Hh1 & Hd1 & He1 & Ho1).
  cbn [bind]. rewrite <- He1.
  destruct (echo_stderr_step st1 _ Ue) as (st2 & -> & Hh2 & Hd2 & Ho2 & He2).
  cbn [bind]. rewrite He1 in *.
  rewrite !updated_captured in *.
  unfold found_hung, progress_at, check_deadlines, tracking.
  cbn [hang_deadline seen_before]. unfold progress_at.
  rewrite <- Ho, <- He, <- Hh.
  destruct (Nat.ltb_spec (last_stdout_len st) (String.length (stdout_by c (tick j))));
    destruct (Nat.ltb_spec (last_stderr_len st) (String.length (stderr_by c (tick j))));
    cbn [orb negb andb bind].
  1-3: exists (set_hang_end (tick j + max_hang) st2); split;
    [destruct (spawned + max_time <? tick j); reflexivity|];
    cbn [set_hang_end done hang_end last_stdout_len last_stderr_len];
    repeat split; try congruence; destruct Ho1, He2; lia.
  - destruct Ho1 as [Ho1 _], He2 as [He2 _].
    exists st2. split.
    + replace (hang_end st2) with (hang_end st) by congruence.
      destruct (hang_end st <? tick j); [reflexivity|]. cbn [bind].
      destruct (spawned + max_time <? tick j); reflexivity.
    + repeat split; try congruence; lia.
Qed.

Lemma tracking_polls m :
  forall j st,
    tracking c tick spawned max_hang j st ->
    (forall i, (j <= i < j + m)%nat ->
       unfinished_at c (tick i) /\ found_hung c tick spawned max_hang i = false /\
       tick i <= spawned + max_time) ->
    exists st',
      poll_loop command max_hang max_time start (spawned + max_time)
        (observations_from c tick j m) st = Pending st' /\
      tracking c tick spawned max_hang (j + m) st'.
Proof.
  induction m as [|m IH]; intros j st Ht Hi.
  - exists st. rewrite Nat.add_0_r. split; [|exact Ht].
    simpl. now rewrite (proj1 Ht).
  - rewrite observations_from_S. cbn [poll_loop]. rewrite (proj1 Ht).
    destruct (Hi j ltac:(lia)) as (Hrun & Hnot & Hle).
    destruct (tracking_step j st Hrun Ht) as (st1 & -> & Ht1).
    rewrite Hnot.
    destruct (Z.ltb_spec (spawned + max_time) (tick j)); [lia|].
    cbn [bind].
    destruct (IH (S j) st1 Ht1) as (st' & Hl & Ht'); [intros; apply Hi; lia|].
    exists st'. split; [exact Hl|]. now replace (j + S m)%nat with (S j + m)%nat by lia.
Qed.

Lemma tracking_initial : tracking c tick spawned max_hang 0 (initial spawned max_hang).
Proof. repeat split. Qed.

End Tracked.

(** ** What the loop echoes *)

Local Open Scope list_scope.

Lemma split_nl_nonempty s : Py.split_nl s <> [].
Proof.
  destruct s as [|c t]; simpl; [discriminate|].
  destruct (Ascii.eqb c "010"); [discriminate|].
  destruct (Py.split_nl t); discriminate.
Qed.

Lemma removelast_cons {A : Type} (x : A) l : l <> [] -> removelast (x :: l) = x :: removelast l.
Proof. destruct l; [contradiction|reflexivity]. Qed.

Lemma complete_lines_length s :
  List.length (Py.split_nl s) = S (List.length (complete_lines s)).
Proof.
  unfold complete_lines. pose proof (split_nl_nonempty s) as H.
  destruct (exists_last H) as (l & a & ->).
  rewrite removelast_last, length_app. simpl. lia.
Qed.

Lemma complete_lines_app a b :
  exists more, complete_lines (a ++ b)%string = complete_lines a ++ more.
Proof.
  unfold complete_lines. induction a as [|c t IH]; simpl.
  - eexists; reflexivity.
  - destruct IH as (more & IH).
    destruct (Ascii.eqb c "010").
    + rewrite !removelast_cons by apply split_nl_nonempty.
      exists more. simpl. now rewrite IH.
    + pose proof (split_nl_nonempty t) as Ht.
      pose proof (split_nl_nonempty (t ++ b)%string) as Htb.
      destruct (Py.split_nl t) as [|h' r']; [contradiction|].
      destruct (Py.split_nl (t ++ b)%string) as [|h r]; [contradiction|].
      destruct r' as [|x r'].
      * simpl. eexists; reflexivity.
      * rewrite (removelast_cons h' (x :: r')) in IH by discriminate.
        destruct r as [|y r]; [discriminate|].
        rewrite (removelast_cons h (y :: r)) in IH by discriminate.
        injection IH as -> IH.
        rewrite (removelast_cons _ (x :: r')) by discriminate.
        rewrite (removelast_cons _ (y :: r)) by discriminate.
        exists more. simpl. now rewrite IH.
Qed.

Lemma echoes_app outs errs p outs' errs' p' :
  echoes outs errs p -> echoes outs' errs' p' ->
  echoes (outs ++ outs') (errs ++ errs') (p ++ p').
Proof.
  intros H H'. induction H; simpl; try (constructor; assumption). exact H'.
Qed.

Lemma echoes_stdout_from n outs :
  echoes outs [] (map (append tag_stdout) (skipn n outs)).
Proof.
  revert n. induction outs as [|l outs IH]; intros n.
  - rewrite skipn_nil. constructor.
  - destruct n as [|n]; simpl.
    + apply echoes_stdout. apply (IH 0%nat).
    + apply echoes_skip_stdout. apply IH.
Qed.

Lemma echoes_stderr_from n errs :
  echoes [] errs (map (append tag_stderr) (skipn n errs)).
Proof.
  revert n. induction errs as [|l errs IH]; intros n.
  - rewrite skipn_nil. constructor.
  - destruct n as [|n]; simpl.
    + apply echoes_stderr. apply (IH 0%nat).
    + apply echoes_skip_stderr. apply IH.
Qed.

Lemma skipn_past {A : Type} (l more : list A) n :
  (List.length l <= n)%nat -> skipn n (l ++ more) = skipn (n - List.length l) more.
Proof.
  intros H. rewrite skipn_app, skipn_all2 by exact H. reflexivity.
Qed.


Lemma echo_stdout_console st b :
  Py.utf8_valid b = true ->
  exists st1,
    (if updated (captured b) (last_stdout_len st) then echo_stdout (captured b) st
     else Continue st) = Continue st1 /\
    last_stderr_len st1 = last_stderr_len st /\
    printed_stderr_lines st1 = printed_stderr_lines st /\
    (if updated (captured b) (last_stdout_len st)
     then printed_stdout_lines st1 = List.length (Py.split_nl b) /\
          console st1 = console st ++
            map (append tag_stdout) (skipn (printed_stdout_lines st) (complete_lines b))
     else st1 = st).
Proof.
  intros Hb. rewrite updated_captured.
  destruct (Nat.ltb_spec (last_stdout_len st) (String.length b)) as [Hlt|Hge].
  - destruct b as [|a b]; [simpl in Hlt; lia|].
    assert (Hd : Py.decode_utf8 (String a b) = Some (String a b))
      by (unfold Py.decode_utf8; now rewrite Hb).
    change (captured (String a b)) with (Some (String a b)).
    unfold echo_stdout. rewrite Hd, print_all_eq.
    eexists; split; [reflexivity|]. simpl. repeat split; reflexivity.
  - exists st. repeat split; auto.
Qed.

Lemma echo_stderr_console st b :
  Py.utf8_valid b = true ->
  exists st1,
    (if updated (captured b) (last_stderr_len st) then echo_stderr (captured b) st
     else Continue st) = Continue st1 /\
    printed_stdout_lines st1 = printed_stdout_lines st /\
    (if updated (captured b) (last_stderr_len st)
     then printed_stderr_lines st1 = List.length (Py.split_nl b) /\
          console st1 = console st ++
            map (append tag_stderr) (skipn (printed_stderr_lines st) (complete_lines b))
     else st1 = st).
Proof.
  intros Hb. rewrite updated_captured.
  destruct (Nat.ltb_spec (last_stderr_len st) (String.length b)) as [Hlt|Hge].
  - destruct b as [|a b]; [simpl in Hlt; lia|].
    assert (Hd : Py.decode_utf8 (String a b) = Some (String a b))
      by (unfold Py.decode_utf8; now rewrite Hb).
    change (captured (String a b)) with (Some (String a b)).
    unfold echo_stderr. rewrite Hd, print_all_eq.
    eexists; split; [reflexivity|]. simpl. repeat split; reflexivity.
  - exists st. repeat split; auto.
Qed.

Lemma check_deadlines_console command max_hang max_time start absolute_end u now st st' :
  check_deadlines command max_hang max_time start absolute_end u now st = Continue st' ->
  console st' = console st /\
  printed_stdout_lines st' = printed_stdout_lines st /\
  printed_stderr_lines st' = printed_stderr_lines st.
Proof.
  unfold check_deadlines. destruct u; simpl.
  - destruct (absolute_end <? now); [discriminate|]. intros [= <-]. auto.
  - destruct (hang_end st <? now); simpl; [discriminate|].
    destruct (absolute_end <? now); [discriminate|]. intros [= <-]. auto.
Qed.

Lemma faithful_later c now now' st :
  now <= now' -> faithful c now st -> faithful c now' st.
Proof.
  intros Hle (outs & errs & He & Lo & Le & Hp).
  exists outs, errs. repeat split; auto; apply Hp; lia.
Qed.

Lemma faithful_initial c now spawned max_hang : faithful c now (initial spawned max_hang).
Proof.
  exists [], []. simpl. repeat split; try lia; try constructor; eexists; reflexivity.
Qed.

Section Echo.

Variables (command : string) (max_hang max_time start absolute_end : Z).
Variables (c : child_process).
Hypothesis app : appends c.
Hypothesis utf : utf8_output c.

Lemma complete_lines_later t t' :
  t <= t' ->
  (exists more, complete_lines (stdout_by c t') = complete_lines (stdout_by c t) ++ more) /\
  (exists more, complete_lines (stderr_by c t') = complete_lines (stderr_by c t) ++ more).
Proof.
  intros Ht. destruct (app t t' Ht) as [[so ->] [se ->]].
  split; apply complete_lines_app.
Qed.

(** A timed-out wait echoes, of each stream, lines the child has completed
    and that come after all those echoed or passed over before. *)
Lemma faithful_step T now st st' :
  T <= now ->
  faithful c T st ->
  iteration command max_hang max_time start absolute_end (expired c now) st = Continue st' ->
  faithful c now st'.
Proof.
  intros HT (outs & errs & He & Lo & Le & Hp).
  unfold expired. cbn [iteration].
  destruct (utf now) as [Uo Ue].
  destruct (Hp now HT) as [[mo Ho] [me Hme]].
  destruct (echo_stdout_console st _ Uo) as (st1 & -> & Hl1 & Pe1 & H1).
  cbn [bind]. rewrite <- Hl1.
  destruct (echo_stderr_console st1 _ Ue) as (st2 & -> & Po2 & H2).
  cbn [bind]. rewrite Hl1 in *.
  intros Hc. apply check_deadlines_console in Hc as (Hc & Hpo & Hpe).
  unfold faithful. rewrite Hc, Hpo, Hpe. clear Hc Hpo Hpe st'.
  destruct (updated (captured (stdout_by c now)) (last_stdout_len st)) eqn:U1;
    destruct (updated (captured (stderr_by c now)) (last_stderr_len st)) eqn:U2.
  - destruct H1 as [P1 C1], H2 as [P2 C2].
    exists (complete_lines (stdout_by c now)), (complete_lines (stderr_by c now)).
    rewrite C2, C1, Po2, P1, P2, Pe1, !complete_lines_length, Ho, Hme.
    rewrite !skipn_past by assumption. repeat split; try lia.
    + rewrite <- app_assoc. apply echoes_app; [exact He|].
      rewrite <- (app_nil_r mo) at 1. change me with ([] ++ me) at 1.
      apply echoes_app; [apply echoes_stdout_from|apply echoes_stderr_from].
    + rewrite <- Ho. apply complete_lines_later. assumption.
    + rewrite <- Hme. apply complete_lines_later. assumption.
  - destruct H1 as [P1 C1]. subst st2.
    exists (complete_lines (stdout_by c now)), errs.
    rewrite C1, P1, Pe1, !complete_lines_length, Ho.
    rewrite !skipn_past by assumption. repeat split; try lia.
    + rewrite <- (app_nil_r errs). apply echoes_app; [exact He|apply echoes_stdout_from].
    + rewrite <- Ho. apply complete_lines_later. assumption.
    + apply Hp. lia.
  - subst st1. destruct H2 as [P2 C2].
    exists outs, (complete_lines (stderr_by c now)).
    rewrite C2, Po2, P2, !complete_lines_length, Hme.
    rewrite !skipn_past by assumption. repeat split; try lia.
    + rewrite <- (app_nil_r outs). apply echoes_app; [exact He|apply echoes_stderr_from].
    + apply Hp. lia.
    + rewrite <- Hme. apply complete_lines_later. assumption.
  - subst st1 st2. exists outs, errs. repeat split; auto; apply Hp; lia.
Qed.

(** The flush at the end does the same with what [communicate] returns. *)
Lemma faithful_flush T t st rc st' :
  T <= t ->
  faithful c T st ->
  iteration command max_hang max_time start absolute_end
    (Finished (stdout_by c t) (stderr_by c t) rc) st = Continue st' ->
  echoes (complete_lines (stdout_by c t)) (complete_lines (stderr_by c t)) (console st') /\
  done st' = true /\ process st' = Exited rc.
Proof.
  intros HT (outs & errs & He & Lo & Le & Hp).
  destruct (Hp t HT) as [[mo Ho] [me Hme]].
  cbn [iteration]. rewrite !print_all_eq. intros [= <-]. simpl.
  split; [|split; reflexivity].
  unfold Py.slice_to_last. fold (complete_lines (stdout_by c t)).
  fold (complete_lines (stderr_by c t)).
  rewrite Ho, Hme, !skipn_past by assumption.
  rewrite <- app_assoc. apply echoes_app; [exact He|].
  rewrite <- (app_nil_r mo) at 1. change me with ([] ++ me) at 1.
  apply echoes_app; [apply echoes_stdout_from|apply echoes_stderr_from].
Qed.

End Echo.

Lemma string_length_app a b :
  String.length (a ++ b)%string = (String.length a + String.length b)%nat.
Proof. induction a; simpl; congruence. Qed.

Lemma appends_accumulates c : appends c -> accumulates c.
Proof.
  intros H t t' Ht. destruct (H t t' Ht) as [[so ->] [se ->]].
  rewrite !string_length_app. lia.
Qed.

Section Delivery.

Variables (command : string) (max_hang max_time start spawned : Z).
Variables (c : child_process) (tick : nat -> Z).
Hypothesis sched : schedule start spawned tick.
Hypothesis app : appends c.
Hypothesis utf : utf8_output c.

Lemma faithful_polls horizon m :
  forall j T st st',
    faithful c T st -> T <= horizon ->
    (forall i, (j <= i < j + m)%nat ->
       unfinished_at c (tick i) /\ T <= tick i /\ tick i <= horizon) ->
    poll_loop command max_hang max_time start (spawned + max_time)
      (observations_from c tick j m) st = Pending st' ->
    faithful c horizon st'.
Proof.
  induction m as [|m IH]; intros j T st st' Hf HT Hi.
  - simpl. destruct (done st); [discriminate|]. intros [= <-].
    now apply (faithful_later c T).
  - rewrite observations_from_S. cbn [poll_loop].
    destruct (done st); [discriminate|].
    destruct (Hi j ltac:(lia)) as (Hrun & HTj & Hjh).
    rewrite (observe_unfinished c tick j Hrun).
    destruct (iteration command max_hang max_time start (spawned + max_time)
                (expired c (tick j)) st) as [st1|e st1|st1] eqn:Hit; cbn [bind].
    + apply (IH (S j) (tick j) st1 st'); [|exact Hjh|].
      * apply (faithful_step command max_hang max_time start (spawned + max_time)
                 c app utf T (tick j) st st1 HTj Hf Hit).
      * intros i Hi'. destruct (Hi i ltac:(lia)) as (Hr & _ & Hh).
        repeat split; auto. apply (tick_mono _ _ _ sched). lia.
    + discriminate.
    + now apply iteration_not_pending in Hit.
Qed.

End Delivery.

Lemma observe_finished c tick k e rc :
  finished c = Some (e, rc) -> e <= tick k ->
  Py.utf8_valid (stdout_by c e) = true -> Py.utf8_valid (stderr_by c e) = true ->
  observe c tick k
  = Finished (translate_newlines (stdout_by c e)) (translate_newlines (stderr_by c e)) rc.
Proof.
  intros He Hk Uo Ue. unfold observe. rewrite He.
  destruct (Z.leb_spec e (tick k)); [|lia].
  unfold completed, Py.decode_utf8. now rewrite Uo, Ue.
Qed.

Lemma observe_exited c tick k e rc :
  finished c = Some (e, rc) -> e <= tick k ->
  utf8_output c -> no_carriage_return c ->
  observe c tick k = Finished (stdout_by c e) (stderr_by c e) rc.
Proof.
  intros He Hk Hu Hn.
  rewrite (observe_finished c tick k e rc He Hk (proj1 (Hu e)) (proj2 (Hu e))).
  destruct (Hn e) as [-> ->]. reflexivity.
Qed.

Lemma flush_console command max_hang max_time start absolute_end out err rc st :
  exists st',
    iteration command max_hang max_time start absolute_end (Finished out err rc) st
    = Continue st' /\
    done st' = true /\ process st' = Exited rc /\
    console st' = console st
      ++ map (append tag_stdout) (skipn (printed_stdout_lines st) (complete_lines out))
      ++ map (append tag_stderr) (skipn (printed_stderr_lines st) (complete_lines err)).
Proof.
  cbn [iteration]. rewrite !print_all_eq. eexists. split; [reflexivity|].
  simpl. rewrite <- app_assoc. repeat split.
Qed.

(** The end of a call whose loop has reaped the child with an acceptable
    return code. *)
Lemma unwind_reaped command directory expected rc st :
  done st = true -> process st = Exited rc ->
  expected = None \/ expected = Some rc ->
  unwind command directory
    (poll_loop command 0 0 0 0 [] st >>= check_return_code command expected)
  = {| ended := Returned tt; printed := console st; child := Exited rc;
       spawned_command := command; spawned_cwd := directory |}.
Proof.
  intros Hd Hp Hx. cbn [poll_loop]. rewrite Hd. cbn [bind].
  unfold check_return_code. rewrite Hp.
  destruct Hx as [->| ->]; [|rewrite Z.eqb_refl]; cbn [negb unwind];
    unfold finally; now rewrite Hd, Hp.
Qed.

Section Reaped.

Variables (command : string) (directory : option path).
Variables (max_hang max_time start spawned : Z).
Variables (c : child_process) (tick : nat -> Z) (d e rc : Z).
Hypothesis sched : schedule start spawned tick.
Hypothesis acc : accumulates c.
Hypothesis utf : utf8_output c.
Hypothesis fin : finished c = Some (e, rc).
Hypothesis in_time : e <= spawned + max_time.
Hypothesis pace : d < max_hang.
Hypothesis lively : lively_until c spawned d e.

(** The loop polls, patient, until the first wait that ends at or after the
    child has finished. *)
Lemma polls_until_finished :
  exists k st,
    e <= tick k /\ (forall j, (j < k)%nat -> tick j < e) /\
    poll_loop command max_hang max_time start (spawned + max_time)
      (observations_from c tick 0 k) (initial spawned max_hang) = Pending st /\
    patient c tick spawned max_hang k st.
Proof.
  destruct (first_tick_past start spawned tick sched (e - 1)) as (k & Hk & Hfirst).
  destruct (patient_polls command max_hang max_time start spawned c tick d
              sched acc utf pace k 0%nat _
              (patient_initial max_hang start spawned c tick sched)) as (st & Hl & Hp).
  { intros i Hi. specialize (Hfirst i ltac:(lia)). repeat split.
    - unfold unfinished_at. rewrite fin. lia.
    - intros t Ht Htd. apply lively; lia.
    - lia. }
  exists k, st. split; [lia|]. split; [|split; [exact Hl|exact Hp]].
  intros j Hj. specialize (Hfirst j Hj). lia.
Qed.

(** A child that finishes within the total limit and keeps its pace until
    then is reaped, and its return code alone decides how the call ends. *)
Lemma reaped_in_time :
  exists k,
    e <= tick k /\ (forall j, (j < k)%nat -> tick j < e) /\
    forall expected n, (k < n)%nat ->
      let r := call_cli_body command directory max_hang max_time expected
                 (supervise c tick start spawned n) in
      child r = Exited rc /\
      ended r = match expected with
                | Some x => if rc =? x then Returned tt
                            else Raised (WrongReturnCode command x rc)
                | None => Returned tt
                end.
Proof.
  destruct polls_until_finished as (k & st & Hk & Hfirst & Hl & Hp).
  exists k. split; [exact Hk|]. split; [exact Hfirst|].
  assert (H : forall expected,
            let r := call_cli_body command directory max_hang max_time expected
                       (supervise c tick start spawned (S k)) in
            child r = Exited rc /\
            ended r = match expected with
                      | Some x => if rc =? x then Returned tt
                                  else Raised (WrongReturnCode command x rc)
                      | None => Returned tt
                      end).
  { intros expected. cbv zeta. rewrite call_cli_body_supervise.
    change (observations_from c tick 0 (S k)) with (observations c tick (S k)).
    replace (S k) with (k + 1)%nat by lia.
    rewrite observations_split, poll_loop_app.
    change (observations c tick k) with (observations_from c tick 0 k).
    rewrite Hl. unfold observations_from. cbn [seq map poll_loop].
    rewrite (proj1 Hp).
    rewrite (observe_finished c tick k e rc fin Hk (proj1 (utf e)) (proj2 (utf e))).
    destruct (flush_console command max_hang max_time start (spawned + max_time)
                (translate_newlines (stdout_by c e)) (translate_newlines (stderr_by c e))
                rc st) as (st' & -> & Hd & Hpr & _).
    cbn [bind]. rewrite Hd. cbn [bind]. unfold check_return_code. rewrite Hpr.
    destruct expected as [x|]; [destruct (rc =? x)|]; cbn [negb unwind child ended];
      unfold finally; cbn [print done process]; rewrite Hd, Hpr; auto. }
  intros expected n Hn. cbv zeta.
  destruct (H expected) as (Hc & He).
  rewrite (call_cli_body_settled _ _ _ _ _ c tick start spawned (S k)); [auto| |lia].
  rewrite He. destruct expected as [x|]; [destruct (rc =? x)|]; discriminate.
Qed.

End Reaped.

End SupervisionFacts.

(** ** The sample children *)

Module SampleFacts.
Import Runner Supervision Samples SupervisionFacts.

Ltac by_cases :=
  repeat match goal with
         | |- context [?a <? ?b] => destruct (Z.ltb_spec a b)
         end; try lia.

Lemma steady_schedule : schedule 0 1 steady.
Proof.
  split; unfold steady, poll_interval; intros; lia.
Qed.

Lemma dots_length n : String.length (dots n) = n.
Proof. induction n; simpl; congruence. Qed.

Lemma dots_utf8 n : Py.utf8_valid (dots n) = true.
Proof. induction n; [reflexivity|exact IHn]. Qed.

Lemma chatter_accumulates : accumulates chatter.
Proof.
  intros t t' Ht. simpl. rewrite !dots_length. split; [|lia].
  pose proof (Z.div_le_mono t t' 1000 ltac:(lia) Ht). lia.
Qed.

Lemma chatter_utf8 : utf8_output chatter.
Proof. intros t. simpl. split; [apply dots_utf8|reflexivity]. Qed.

Lemma chatter_lively t : 1 <= t -> (total_length chatter t < total_length chatter (t + 1000))%nat.
Proof.
  intros Ht. unfold total_length. simpl. rewrite !dots_length.
  replace (t + 1000) with (t + 1 * 1000) by lia.
  rewrite Z.div_add by lia.
  pose proof (Z.div_pos t 1000 ltac:(lia) ltac:(lia)). lia.
Qed.

Lemma strays_length n : String.length (strays n) = n.
Proof. induction n; simpl; congruence. Qed.

Lemma noise_accumulates : accumulates noise.
Proof.
  intros t t' Ht. simpl. rewrite !strays_length. split; [|lia].
  pose proof (Z.div_le_mono t t' 1000 ltac:(lia) Ht). lia.
Qed.

Lemma noise_lively t : 1 <= t -> (total_length noise t < total_length noise (t + 1000))%nat.
Proof.
  intros Ht. unfold total_length. simpl. rewrite !strays_length.
  replace (t + 1000) with (t + 1 * 1000) by lia.
  rewrite Z.div_add by lia.
  pose proof (Z.div_pos t 1000 ltac:(lia) ltac:(lia)). lia.
Qed.

Lemma garbled_accumulates : accumulates garbled.
Proof. intros t t' Ht. unfold garbled; simpl. split; [|lia]. by_cases; simpl; lia. Qed.

Lemma failing_accumulates : accumulates failing.
Proof. intros t t' Ht. simpl. lia. Qed.

Lemma failing_utf8 : utf8_output failing.
Proof. intros t. split; reflexivity. Qed.

Lemma stalled_accumulates : accumulates stalled.
Proof. intros t t' Ht. unfold stalled; simpl. split; [|lia]. by_cases; simpl; lia. Qed.

Lemma stalled_utf8 : utf8_output stalled.
Proof. intros t. unfold stalled; simpl. split; [|reflexivity]. by_cases; reflexivity. Qed.

Lemma two_lines_appends : appends two_lines.
Proof.
  intros t t' Ht. unfold two_lines; simpl. split; [|exists ""; reflexivity].
  by_cases; eexists; reflexivity.
Qed.

Lemma two_lines_utf8 : utf8_output two_lines.
Proof. intros t. unfold two_lines; simpl. split; [|reflexivity]. by_cases; reflexivity. Qed.

Lemma two_lines_no_carriage_return : no_carriage_return two_lines.
Proof. intros t. unfold two_lines; simpl. split; [|reflexivity]. by_cases; reflexivity. Qed.

Lemma two_lines_lively : lively_until two_lines 1 2900 3000.
Proof.
  intros t Ht Hd. unfold total_length, two_lines; simpl.
  by_cases; simpl; lia.
Qed.

End SampleFacts.

(** ** Claims about the exit paths of [call_cli] *)

Module RunnerClaims.
Import Runner Supervision Samples RunnerFacts SupervisionFacts SampleFacts.

(** C2. Guaranteed cleanup: whenever a call to [call_cli] has ended, by a
    return or by any exception, the child is not left running. It has
    either been reaped after exiting by itself or been killed; and when the
    call ends by an exception other than the wrong return code (a hang, a
    timeout, or an exception that is none of the runner's own) the child
    has been killed, unless that exception is one that [communicate] raised
    after it had waited for the child, which then has exited by itself. *)
Theorem child_not_left_running command directory max_hang max_time expected w :
  let r := call_cli command directory max_hang max_time expected w in
  ended r <> Polling ->
  (child r = Killed \/ exists rc, child r = Exited rc) /\
  (forall e, ended r = Raised e ->
     (forall c x a, e <> WrongReturnCode c x a) ->
     (forall rc, ~ In (Interrupted e (Some rc)) (communicate w)) ->
     child r = Killed).
Proof.
  unfold call_cli.
  destruct (call_cli_body_cases command (Py.or_default None directory)
              (Py.or_default 10000 max_hang) (Py.or_default 60000 max_time)
              (Py.or_default (Some 0) expected) w)
    as [[H _]|[(e & He & [Hk|(rc & Hin & Hc)])|(rc & Hc & He)]];
    simpl; intros Hp.
  - contradiction.
  - split; [now left|]. intros; exact Hk.
  - split; [right; eauto|].
    intros e' Hr _ Hi. rewrite He in Hr. injection Hr as <-. now destruct (Hi rc).
  - split; [right; eauto|].
    intros e Hr Hw _. rewrite He in Hr.
    destruct (Py.or_default (Some 0) expected) as [x|]; [|discriminate].
    destruct (rc =? x); [discriminate|].
    injection Hr as <-. now destruct (Hw command x rc).
Qed.

Lemma child_not_left_running_witness :
  let r := call_cli "tsc" Py.Omitted (Py.Given 3000) Py.Omitted Py.Omitted
             (supervise long_sleep steady 0 1 2) in
  ended r <> Polling /\
  ((child r = Killed \/ exists rc, child r = Exited rc) /\
   (forall e, ended r = Raised e ->
      (forall c x a, e <> WrongReturnCode c x a) ->
      (forall rc, ~ In (Interrupted e (Some rc))
                       (communicate (supervise long_sleep steady 0 1 2))) ->
      child r = Killed)).
Proof.
  split.
  - vm_compute. discriminate.
  - apply (child_not_left_running "tsc" Py.Omitted (Py.Given 3000) Py.Omitted Py.Omitted
             (supervise long_sleep steady 0 1 2)).
    vm_compute. discriminate.
Defined.







(** C8, on two children. [unterminated] writes hello without a line feed
    and exits with code 0 before the first wait times out: the call returns
    and has echoed nothing, the flush leaves the trailing line out.
    [two_lines] writes the line a, then three seconds later the line b, and
    exits with code 0: the wait that times out at 2001 echoes a and counts
    the empty piece after it as printed, so the flush, which gets both
    lines, passes over b; the call returns and has echoed a alone. *)
Theorem flush_leaves_lines_out :
  let r := call_cli "printf hello" Py.Omitted Py.Omitted Py.Omitted Py.Omitted
             (supervise unterminated steady 0 1 1) in
  let r' := call_cli "echo a; sleep 3; echo b" Py.Omitted Py.Omitted Py.Omitted Py.Omitted
              (supervise two_lines steady 0 1 2) in
  (stdout_by unterminated 500 = "hello" /\
   ended r = Returned tt /\
   printed r = [] /\
   printed r <> ["STDOUT > hello"]) /\
  (stdout_by two_lines 3000 = "a" ++ LF ++ "b" ++ LF /\
   ended r' = Returned tt /\
   printed r' = ["STDOUT > a"] /\
   printed r' <> ["STDOUT > a"; "STDOUT > b"]).
Proof. vm_compute. repeat split; discriminate. Qed.

(** Echoing can end a call: when the first wait times out with bytes
    captured from stdout that are not valid UTF-8, the call ends by
    [UnicodeDecodeError], whatever the limits and the clock, and the child
    is killed. *)
Theorem undecodable_output_ends_call command directory max_hang max_time expected
    start spawned b stderr now rest :
  b <> "" ->
  Py.utf8_valid b = false ->
  let r := call_cli command directory max_hang max_time expected
             {| time_start := start;
                time_spawned := spawned;
                communicate := TimeoutExpired (Some b) stderr now :: rest |} in
  ended r = Raised UnicodeDecodeError /\ child r = Killed /\ printed r = [""].
Proof.
  intros Hb Hv. unfold call_cli, call_cli_body. cbn [communicate poll_loop done iteration].
  cbn [updated last_stdout_len].
  destruct b as [|a b]; [contradiction|].
  cbn [String.eqb negb andb String.length Nat.ltb Nat.leb].
  unfold echo_stdout, Py.decode_utf8. rewrite Hv. repeat split.
Qed.

Lemma undecodable_output_ends_call_witness :
  ended (call_cli "cat picture.png" Py.Omitted Py.Omitted Py.Omitted Py.Omitted
           {| time_start := 0;
              time_spawned := 1;
              communicate := [TimeoutExpired (Some (String (ascii_of_N 0x89) "PNG")) None 2001] |})
  = Raised UnicodeDecodeError.
Proof.
  apply (undecodable_output_ends_call "cat picture.png" Py.Omitted Py.Omitted Py.Omitted
           Py.Omitted 0 1 (String (ascii_of_N 0x89) "PNG") None 2001 []).
  - discriminate.
  - reflexivity.
Defined.

End RunnerClaims.

(** ** Claims about the two deadlines *)

Module TimingClaims.
Import Runner Supervision Samples RunnerFacts SupervisionFacts SampleFacts.




(** C4 fails on [noise]: the child never exits and writes a byte every
    second, bytes that are no UTF-8; whatever the number of waits, the call
    does not raise [CommandTimeout]: decoding what the first wait has
    captured raises [UnicodeDecodeError]. *)
Lemma undecodable_output_preempts_timeout : ~ timeout_whatever_is_written.
Proof.
  intros H.
  destruct (H "yes" 10000 60000 noise steady 0 1 1000 steady_schedule eq_refl
              noise_accumulates ltac:(lia) noise_lively) as (n & Hn).
  destruct n as [|n]; [vm_compute in Hn; discriminate|].
  unfold call_cli in Hn. simpl Py.or_default in Hn.
  rewrite (call_cli_body_settled "yes" None 10000 60000 (Some 0) noise steady 0 1 1) in Hn.
  - vm_compute in Hn. discriminate.
  - vm_compute. discriminate.
  - lia.
Qed.

(** C4, amended. A child that never exits and keeps writing output that
    decodes as UTF-8, so that its output grows within every stretch of some
    length below the hang limit, makes the call raise [CommandTimeout]: up
    to the first wait that times out after the total limit has passed since
    the spawn the call is still polling, and at that wait it raises
    [CommandTimeout] with the command and the total limit, and the child is
    killed. It never raises [CommandHung]. *)
Theorem timeout_despite_output command directory max_hang max_time expected
    start spawned c tick d :
  schedule start spawned tick ->
  exit c = None ->
  accumulates c ->
  utf8_output c ->
  d < max_hang ->
  (forall t, spawned <= t -> (total_length c t < total_length c (t + d))%nat) ->
  exists k,
    spawned + max_time < tick k /\
    (forall j, (j < k)%nat -> tick j <= spawned + max_time) /\
    forall n,
      let r := call_cli command directory (Py.Given max_hang) (Py.Given max_time) expected
                 (supervise c tick start spawned n) in
      ((n <= k)%nat -> ended r = Polling /\ child r = Running) /\
      ((k < n)%nat -> ended r = Raised (CommandTimeout command max_time) /\ child r = Killed).
Proof.
  intros Hs Hnever Hacc Hutf Hd Hlive.
  destruct (first_tick_past start spawned tick Hs (spawned + max_time)) as (k & Hk & Hfirst).
  exists k. split; [exact Hk|]. split; [exact Hfirst|].
  assert (Hrun : forall t, unfinished_at c t)
    by (intros t; unfold unfinished_at, finished; now rewrite Hnever).
  assert (Hlu : forall h, lively_until c spawned d h) by (intros h t Ht _; now apply Hlive).
  pose proof (patient_initial max_hang start spawned c tick Hs) as Hp0.
  assert (Hpoll : forall n, (n <= k)%nat ->
            ended (call_cli_body command (Py.or_default None directory) max_hang max_time
                     (Py.or_default (Some 0) expected) (supervise c tick start spawned n))
            = Polling).
  { intros n Hn. rewrite call_cli_body_supervise.
    destruct (patient_polls command max_hang max_time start spawned c tick d
                Hs Hacc Hutf Hd n 0%nat _ Hp0) as (st' & -> & _).
    - intros i Hi. repeat split; auto. apply Hfirst. lia.
    - reflexivity. }
  assert (Hout : ended (call_cli_body command (Py.or_default None directory) max_hang max_time
                     (Py.or_default (Some 0) expected) (supervise c tick start spawned (S k)))
            = Raised (CommandTimeout command max_time)).
  { rewrite call_cli_body_supervise.
    change (observations_from c tick 0 (S k)) with (observations c tick (S k)).
    replace (S k) with (k + 1)%nat by lia.
    rewrite observations_split, poll_loop_app.
    change (observations c tick k) with (observations_from c tick 0 k).
    destruct (patient_polls command max_hang max_time start spawned c tick d
                Hs Hacc Hutf Hd k 0%nat _ Hp0) as (st' & -> & Hp').
    - intros i Hi. repeat split; auto. apply Hfirst. lia.
    - destruct (patient_timeout command max_hang max_time start spawned c tick d
                  Hs Hacc Hutf Hd k st' (Hrun _) (Hlu _) Hp' Hk) as (st'' & ->).
      reflexivity. }
  intros n. unfold call_cli. cbv zeta.
  change (Py.or_default 10000 (Py.Given max_hang)) with max_hang.
  change (Py.or_default 60000 (Py.Given max_time)) with max_time.
  split; intros Hn.
  - split; [now apply Hpoll|]. apply ended_polling_child. now apply Hpoll.
  - rewrite (call_cli_body_settled _ _ _ _ _ c tick start spawned (S k)) by (congruence || lia).
    split; [exact Hout|].
    eapply deadline_raised_child; [exact Hout|discriminate|discriminate].
Qed.

Lemma timeout_despite_output_witness :
  exists k,
    1 + 60000 < steady k /\
    (forall j, (j < k)%nat -> steady j <= 1 + 60000) /\
    forall n,
      let r := call_cli "yes" Py.Omitted (Py.Given 10000) (Py.Given 60000) Py.Omitted
                 (supervise chatter steady 0 1 n) in
      ((n <= k)%nat -> ended r = Polling /\ child r = Running) /\
      ((k < n)%nat -> ended r = Raised (CommandTimeout "yes" 60000) /\ child r = Killed).
Proof.
  apply (timeout_despite_output "yes" Py.Omitted 10000 60000 Py.Omitted
           0 1 chatter steady 1000 steady_schedule).
  - reflexivity.
  - exact chatter_accumulates.
  - exact chatter_utf8.
  - lia.
  - exact chatter_lively.
Defined.

End TimingClaims.

(** ** Claims about the echo *)

Module EchoClaims.
Import Runner Supervision Samples RunnerFacts SupervisionFacts SampleFacts.
Local Open Scope list_scope.


(** With a carriage return in the output a piece of a line is echoed twice:
    the waits that time out split the bytes they captured at line feeds
    only, the flush splits the text that [communicate] returns, in which
    text mode has made every carriage return a line feed. *)
Lemma carriage_return_echoed_twice :
  let r := call_cli "printf 'a\rb\rc\n'; sleep 3; echo d" Py.Omitted Py.Omitted Py.Omitted
             Py.Omitted (supervise carriage steady 0 1 2) in
  ended r = Returned tt /\
  printed r = ["STDOUT > a" ++ CR ++ "b" ++ CR ++ "c"; "STDOUT > c"; "STDOUT > d"]%string.
Proof. vm_compute. split; reflexivity. Qed.



End EchoClaims.

(** ** The file system walk *)

Module BuildFacts.
Import Runner Build.
Local Open Scope list_scope.

(** Induction on a tree, with the property at hand for every entry of a
    directory. *)
Lemma node_induction (P : node -> Prop) :
  (forall m, P (File m)) ->
  (forall m entries, Forall (fun e => P (snd e)) entries -> P (Dir m entries)) ->
  forall n, P n.
Proof.
  intros Hfile Hdir. fix IH 1. intros [m|m entries].
  - apply Hfile.
  - apply Hdir. induction entries as [|[name sub] rest IHrest]; constructor.
    + apply IH.
    + exact IHrest.
Qed.

Lemma walk_from_dir top m entries :
  walk_from top (Dir m entries) =
  (top, dirnames entries, filenames entries)
  :: flat_map (fun e => walk_from (join top (fst e)) (snd e)) entries.
Proof.
  simpl. f_equal. induction entries as [|[name sub] rest IH]; simpl; congruence.
Qed.

Lemma mtimes_from_dir m entries :
  mtimes_from (Dir m entries) =
  file_mtimes entries ++ flat_map (fun e => mtimes_from (snd e)) entries.
Proof.
  simpl. f_equal. induction entries as [|[name sub] rest IH]; simpl; congruence.
Qed.

Lemma well_formed_dir m entries :
  well_formed (Dir m entries) = true ->
  distinct (map fst entries) = true /\ Forall (fun e => well_formed (snd e) = true) entries.
Proof.
  simpl. intros H. apply andb_prop in H as [Hd He]. split; [exact Hd|].
  clear Hd. induction entries as [|[name sub] rest IH]; constructor.
  - simpl. now apply andb_prop in He as [He _].
  - apply IH. now apply andb_prop in He as [_ He].
Qed.

Lemma lookup_in name sub entries :
  lookup name entries = Some sub -> In (name, sub) entries.
Proof.
  induction entries as [|[n x] rest IH]; simpl; [discriminate|].
  destruct (String.eqb_spec n name) as [->|Hne].
  - intros [= ->]. now left.
  - intros H. right. now apply IH.
Qed.

Lemma in_lookup name sub entries :
  distinct (map fst entries) = true -> In (name, sub) entries ->
  lookup name entries = Some sub.
Proof.
  induction entries as [|[n x] rest IH]; simpl; [contradiction|].
  intros Hd Hin. apply andb_prop in Hd as [Hfresh Hd].
  destruct Hin as [[= -> ->]|Hin].
  - now rewrite String.eqb_refl.
  - destruct (String.eqb_spec n name) as [->|Hne]; [|now apply IH].
    exfalso. apply negb_true_iff in Hfresh.
    assert (existsb (String.eqb name) (map fst rest) = true); [|congruence].
    apply existsb_exists. exists name. split; [|apply String.eqb_refl].
    apply in_map_iff. now exists (name, sub).
Qed.

Lemma resolve_app fs p q :
  resolve fs (p ++ q) =
  match resolve fs p with
  | Some n => resolve n q
  | None => None
  end.
Proof.
  revert fs. induction p as [|name p IH]; intros fs; simpl; [reflexivity|].
  destruct fs as [m|m entries]; [reflexivity|].
  destruct (lookup name entries); [apply IH|reflexivity].
Qed.

Lemma resolve_file_nil m p t :
  resolve (File m) p = Some t -> p = [] /\ t = File m.
Proof. destruct p; simpl; [now intros [= <-]|discriminate]. Qed.

(** ** What the two loops collect *)

Lemma stat_files_app fs directory files acc :
  stat_files fs directory files acc =
  match stat_files fs directory files [] with
  | inl e => inl e
  | inr times => inr (acc ++ times)
  end.
Proof.
  revert acc. induction files as [|f files IH]; intros acc; simpl.
  - now rewrite app_nil_r.
  - destruct (getmtime fs (join directory f)) as [m|]; [|reflexivity].
    rewrite (IH (acc ++ [m])), (IH [m]).
    destruct (stat_files fs directory files []); [reflexivity|].
    simpl. now rewrite <- app_assoc.
Qed.

Lemma walk_loop_app fs l1 l2 :
  forall directory acc,
    walk_loop fs (l1 ++ l2) directory acc =
    match walk_loop fs l1 directory acc with
    | inl e => inl e
    | inr (d, times) => walk_loop fs l2 d times
    end.
Proof.
  induction l1 as [|[[d dirs] files] l1 IH]; intros directory acc; simpl; [reflexivity|].
  destruct (stat_files fs d files acc); [reflexivity|apply IH].
Qed.

Lemma last_cons {A : Type} (l : list A) :
  forall a d, last (a :: l) d = last l a.
Proof.
  induction l as [|b l IH]; intros a d; [reflexivity|].
  change (last (a :: b :: l) d) with (last (b :: l) d).
  now rewrite !IH.
Qed.

(** The loop leaves [directory] bound to the last directory walked. *)
Lemma walk_loop_directory fs walked :
  forall directory acc d times,
    walk_loop fs walked directory acc = inr (d, times) ->
    d = last (map dirpath walked) directory.
Proof.
  induction walked as [|[[d0 dirs] files] walked IH]; intros directory acc d times;
    cbn [walk_loop].
  - now intros [= <- _].
  - destruct (stat_files fs d0 files acc) as [e|times0]; [discriminate|].
    intros H. apply IH in H. rewrite H.
    change (map dirpath ((d0, dirs, files) :: walked)) with (d0 :: map dirpath walked).
    now rewrite last_cons.
Qed.

Lemma resolve_entry fs top m entries name sub :
  resolve fs top = Some (Dir m entries) ->
  distinct (map fst entries) = true ->
  In (name, sub) entries ->
  resolve fs (join top name) = Some sub.
Proof.
  intros Ht Hd Hin. unfold join. rewrite resolve_app, Ht. simpl.
  now rewrite (in_lookup name sub entries Hd Hin).
Qed.

Lemma stat_files_entries fs top m entries :
  resolve fs top = Some (Dir m entries) ->
  distinct (map fst entries) = true ->
  forall l, incl l entries ->
    stat_files fs top (filenames l) [] = inr (file_mtimes l).
Proof.
  intros Ht Hd. induction l as [|[name sub] l IH]; intros Hl; [reflexivity|].
  assert (Hin : In (name, sub) entries) by (apply Hl; now left).
  assert (Hl' : incl l entries) by (intros e He; apply Hl; now right).
  unfold filenames, file_mtimes in *. simpl.
  destruct sub as [t|t sub]; simpl; [|now apply IH].
  unfold getmtime. rewrite (resolve_entry fs top m entries name (File t) Ht Hd Hin).
  simpl. rewrite stat_files_app, (IH Hl'). reflexivity.
Qed.

(** On a well-formed tree the two loops meet no missing file, and collect
    the modification times of all files below the directory walked. *)
Lemma walk_loop_collects :
  forall n, well_formed n = true ->
  forall fs top, resolve fs top = Some n ->
  forall directory acc,
    exists d, walk_loop fs (walk_from top n) directory acc = inr (d, acc ++ mtimes_from n).
Proof.
  intros n. pattern n. apply node_induction; clear n;
    [intros t|intros t entries IH]; intros Hwf fs top Ht directory acc.
  - exists directory. simpl. now rewrite app_nil_r.
  - apply well_formed_dir in Hwf as [Hd Hsub].
    rewrite walk_from_dir, mtimes_from_dir. cbn [walk_loop].
    rewrite stat_files_app.
    rewrite (stat_files_entries fs top t entries Ht Hd entries (incl_refl _)).
    cbn [app].
    rewrite Forall_forall in IH, Hsub.
    assert (Hinner : forall l, incl l entries -> forall d0 acc0,
              exists d,
                walk_loop fs (flat_map (fun e => walk_from (join top (fst e)) (snd e)) l)
                  d0 acc0
                = inr (d, acc0 ++ flat_map (fun e => mtimes_from (snd e)) l)).
    { induction l as [|[name sub] l IHl]; intros Hl d0 acc0; cbn [flat_map fst snd].
      - exists d0. simpl. now rewrite app_nil_r.
      - assert (Hin : In (name, sub) entries) by (apply Hl; now left).
        rewrite walk_loop_app.
        destruct (IH _ Hin (Hsub _ Hin) fs (join top name)
                    (resolve_entry fs top t entries name sub Ht Hd Hin) d0 acc0) as (d1 & H1).
        cbn [snd] in H1. rewrite H1.
        destruct (IHl (fun e He => Hl e (or_intror He)) d1 (acc0 ++ mtimes_from sub))
          as (d2 & ->).
        exists d2. now rewrite <- app_assoc. }
    destruct (Hinner entries (incl_refl _) top (acc ++ file_mtimes entries)) as (d & Hd').
    exists d. rewrite Hd'. now rewrite app_assoc.
Qed.

(** The times collected are those of the files that paths lead to. *)
Lemma mtimes_from_resolve :
  forall n, well_formed n = true ->
  forall t, In t (mtimes_from n) <-> exists p, p <> [] /\ resolve n p = Some (File t).
Proof.
  intros n. pattern n. apply node_induction; clear n;
    [intros m|intros m entries IH]; intros Hwf t.
  - simpl. split; [contradiction|].
    intros (p & Hp & Hr). apply resolve_file_nil in Hr as [-> _]. now apply Hp.
  - apply well_formed_dir in Hwf as [Hd Hsub].
    rewrite Forall_forall in IH, Hsub.
    rewrite mtimes_from_dir, in_app_iff. split.
    + intros [H|H].
      * unfold file_mtimes in H. apply in_map_iff in H as ([name sub] & Hm & H).
        apply filter_In in H as [Hin Hf]. simpl in *.
        destruct sub as [t'|t' sub]; [|discriminate]. simpl in Hm. subst t'.
        exists [name]. split; [discriminate|]. simpl.
        now rewrite (in_lookup name (File t) entries Hd Hin).
      * apply in_flat_map in H as ([name sub] & Hin & H). simpl in H.
        apply (IH _ Hin (Hsub _ Hin)) in H as (p & Hp & Hr).
        exists (name :: p). split; [discriminate|]. simpl.
        now rewrite (in_lookup name sub entries Hd Hin).
    + intros (p & Hp & Hr). destruct p as [|name p]; [now destruct Hp|].
      simpl in Hr. destruct (lookup name entries) as [sub|] eqn:Hl; [|discriminate].
      apply lookup_in in Hl.
      destruct p as [|name' p].
      * left. simpl in Hr. injection Hr as ->.
        unfold file_mtimes. apply in_map_iff. exists (name, File t).
        split; [reflexivity|]. apply filter_In. now split.
      * right. apply in_flat_map. exists (name, sub). split; [exact Hl|].
        apply (IH _ Hl (Hsub _ Hl)). exists (name' :: p). split; [discriminate|exact Hr].
Qed.

Lemma fold_left_max r :
  forall x,
    (fold_left Z.max r x = x \/ In (fold_left Z.max r x) r) /\
    x <= fold_left Z.max r x /\
    (forall y, In y r -> y <= fold_left Z.max r x).
Proof.
  induction r as [|a r IH]; intros x; simpl.
  - repeat split; [now left|lia|contradiction].
  - destruct (IH (Z.max x a)) as (Hin & Hle & Hall). repeat split.
    + destruct Hin as [Hin|Hin]; [|now right; right].
      rewrite Hin. destruct (Z.max_spec x a) as [[_ ->]|[_ ->]]; [right|]; now left.
    + lia.
    + intros y [<-|Hy]; [lia|now apply Hall].
Qed.

Lemma max_some l M :
  Py.max l = Some M -> In M l /\ (forall x, In x l -> x <= M).
Proof.
  destruct l as [|x r]; simpl; [discriminate|]. intros [= <-].
  destruct (fold_left_max r x) as (Hin & Hle & Hall). split.
  - destruct Hin as [->|Hin]; [now left|now right].
  - intros y [<-|Hy]; [exact Hle|now apply Hall].
Qed.

Lemma max_nonempty l : l <> [] -> exists M, Py.max l = Some M.
Proof. destruct l; [contradiction|intros _; eexists; reflexivity]. Qed.

Lemma resolve_well_formed p :
  forall fs n, well_formed fs = true -> resolve fs p = Some n -> well_formed n = true.
Proof.
  induction p as [|name p IH]; intros fs n Hwf; simpl.
  - now intros [= <-].
  - destruct fs as [m|m entries]; [discriminate|].
    destruct (lookup name entries) as [sub|] eqn:Hl; [|discriminate].
    apply IH. apply well_formed_dir in Hwf as [_ Hsub].
    rewrite Forall_forall in Hsub. apply (Hsub (name, sub)). now apply lookup_in.
Qed.

Lemma file_under_resolve fs directory n :
  resolve fs directory = Some n ->
  forall p t, file_under fs directory p t <-> p <> [] /\ resolve n p = Some (File t).
Proof.
  intros Hn p t. unfold file_under. now rewrite resolve_app, Hn.
Qed.

Lemma file_under_directory fs directory p t :
  file_under fs directory p t -> exists n, resolve fs directory = Some n.
Proof.
  intros [_ H]. rewrite resolve_app in H.
  destruct (resolve fs directory) as [n|]; [eauto|discriminate].
Qed.

(** Every directory the walk yields lies at or below where it started. *)
Lemma walk_from_below :
  forall n top t, In t (walk_from top n) -> exists q, dirpath t = top ++ q.
Proof.
  intros n. pattern n. apply node_induction; clear n; [intros m|intros m entries IH];
    intros top t Hin.
  - contradiction.
  - rewrite walk_from_dir in Hin. destruct Hin as [<-|Hin].
    + exists []. simpl. now rewrite app_nil_r.
    + apply in_flat_map in Hin as ([name sub] & He & Hin).
      rewrite Forall_forall in IH.
      destruct (IH _ He _ _ Hin) as (q & Hq).
      exists (name :: q). rewrite Hq. unfold join. simpl. now rewrite <- app_assoc.
Qed.

Lemma last_in {A : Type} (l : list A) d : l <> [] -> In (last l d) l.
Proof.
  induction l as [|a l IH]; [contradiction|]. intros _.
  destruct l as [|b l]; [now left|].
  right. apply IH. discriminate.
Qed.

(** With a subdirectory to go into, the walk ends strictly below its start. *)
Lemma walk_ends_below top m entries d :
  (exists name m' sub, In (name, Dir m' sub) entries) ->
  exists name q,
    last (map dirpath (walk_from top (Dir m entries))) d = top ++ name :: q.
Proof.
  intros (name & m' & sub & Hin).
  rewrite walk_from_dir. cbn [map]. rewrite last_cons.
  set (below := flat_map (fun e => walk_from (join top (fst e)) (snd e)) entries).
  assert (Hne : map dirpath below <> []).
  { assert (H : In (join top name, dirnames sub, filenames sub) below).
    { apply in_flat_map. exists (name, Dir m' sub). split; [exact Hin|].
      cbn [fst snd]. rewrite walk_from_dir. now left. }
    destruct below; [contradiction|discriminate]. }
  apply (last_in _ (dirpath (top, dirnames entries, filenames entries))) in Hne.
  apply in_map_iff in Hne as (t & Ht & Hin').
  apply in_flat_map in Hin' as ([name' sub'] & _ & Hin').
  apply walk_from_below in Hin' as (q & Hq).
  exists name', q. rewrite <- Ht, Hq. unfold join. simpl. now rewrite <- app_assoc.
Qed.

Lemma spawned_cwd_unwind command directory f :
  spawned_cwd (unwind command directory f) = directory /\
  spawned_command (unwind command directory f) = command.
Proof. destruct f; split; reflexivity. Qed.

End BuildFacts.

(** ** Claims about the rebuild decision *)

Module BuildClaims.
Import Runner Build Samples BuildFacts.
Local Open Scope list_scope.

(** C7. For a source directory with at least one file below it, the
    staleness decision is true when the output path does not exist;
    otherwise it is true exactly when the latest modification time among
    all files below the source directory, at any depth, is strictly greater
    than the modification time of the output path. *)
Theorem staleness_decision fs directory output_file :
  well_formed fs = true ->
  (exists p t, file_under fs directory p t) ->
  (resolve fs output_file = None ->
   exists d, staleness fs directory output_file = inr (true, d)) /\
  (forall o, resolve fs output_file = Some o ->
     exists latest d,
       latest_under fs directory latest /\
       staleness fs directory output_file = inr (latest >? mtime_of o, d)).
Proof.
  intros Hwf (p & t & Hfile). split.
  - intros Ho. exists directory. unfold staleness, exists_. now rewrite Ho.
  - intros o Ho.
    destruct (file_under_directory _ _ _ _ Hfile) as (n & Hn).
    pose proof (resolve_well_formed _ _ _ Hwf Hn) as Hwfn.
    unfold staleness, exists_, getmtime, walk. rewrite Ho, Hn. simpl option_map.
    destruct (walk_loop_collects n Hwfn fs directory Hn directory []) as (d & ->).
    simpl app.
    assert (Hin : In t (mtimes_from n)).
    { apply (mtimes_from_resolve n Hwfn). exists p.
      now apply (file_under_resolve fs directory n Hn). }
    destruct (max_nonempty (mtimes_from n)) as (latest & Hmax).
    { intros E. now rewrite E in Hin. }
    rewrite Hmax. exists latest, d. split; [|reflexivity].
    apply max_some in Hmax as [Hl Hall]. split.
    + apply (mtimes_from_resolve n Hwfn) in Hl as (q & Hq).
      exists q. now apply (file_under_resolve fs directory n Hn).
    + intros q t' Hq. apply Hall. apply (mtimes_from_resolve n Hwfn).
      exists q. now apply (file_under_resolve fs directory n Hn).
Qed.

Lemma staleness_decision_witness :
  (resolve project ["site"; "typescript.js"] = None ->
   exists d, staleness project ["typescript"] ["site"; "typescript.js"] = inr (true, d)) /\
  (forall o, resolve project ["site"; "typescript.js"] = Some o ->
     exists latest d,
       latest_under project ["typescript"] latest /\
       staleness project ["typescript"] ["site"; "typescript.js"]
       = inr (latest >? mtime_of o, d)).
Proof.
  apply (staleness_decision project ["typescript"] ["site"; "typescript.js"]).
  - reflexivity.
  - exists ["a.ts"], 50. split; [discriminate|reflexivity].
Defined.

(** C9. When the output file exists and there is no file at all below the
    source directory, the staleness block raises [ValueError], from the
    maximum of an empty list, and so does [build_typescript], before any
    compiler is run. *)
Theorem staleness_fails_without_files fs directory output_file w :
  well_formed fs = true ->
  exists_ fs output_file = true ->
  (forall p t, ~ file_under fs directory p t) ->
  staleness fs directory output_file = inl ValueError /\
  outcome (build_typescript fs directory output_file w) = Raised ValueError /\
  compiler (build_typescript fs directory output_file w) = None.
Proof.
  intros Hwf Hex Hnone.
  assert (H : staleness fs directory output_file = inl ValueError).
  { unfold staleness. rewrite Hex. unfold exists_, getmtime in *.
    destruct (resolve fs output_file) as [o|]; [|discriminate]. simpl option_map.
    unfold walk. destruct (resolve fs directory) as [n|] eqn:Hn; [|reflexivity].
    pose proof (resolve_well_formed _ _ _ Hwf Hn) as Hwfn.
    destruct (walk_loop_collects n Hwfn fs directory Hn directory []) as (d & ->).
    simpl app. destruct (mtimes_from n) as [|t l] eqn:Hm; [reflexivity|].
    exfalso. assert (Hin : In t (mtimes_from n)) by (rewrite Hm; now left).
    apply (mtimes_from_resolve n Hwfn) in Hin as (q & Hq).
    apply (Hnone q t). now apply (file_under_resolve fs directory n Hn). }
  unfold build_typescript. rewrite H. auto.
Qed.

Lemma staleness_fails_without_files_witness :
  staleness project ["tests"] ["site"; "typescript.js"] = inl ValueError.
Proof.
  apply (staleness_fails_without_files project ["tests"] ["site"; "typescript.js"]
           {| time_start := 0; time_spawned := 1; communicate := [] |}).
  - reflexivity.
  - reflexivity.
  - intros p t H.
    apply (file_under_resolve project ["tests"] (Dir 6 [("empty", Dir 7 [])]) eq_refl) in H.
    apply (mtimes_from_resolve (Dir 6 [("empty", Dir 7 [])]) eq_refl t).
    exists p. exact H.
Defined.

(** C10. When the output file exists, the source directory has a
    subdirectory and the staleness block decides to rebuild, the compiler
    is run in the last directory that the walk yielded, which lies strictly
    below the source directory: the loop variable has taken the place of
    the parameter. *)
Theorem compiler_runs_in_last_walked fs directory output_file m entries d w :
  exists_ fs output_file = true ->
  resolve fs directory = Some (Dir m entries) ->
  (exists name m' sub, In (name, Dir m' sub) entries) ->
  staleness fs directory output_file = inr (true, d) ->
  exists r,
    compiler (build_typescript fs directory output_file w) = Some r /\
    spawned_command r = "tsc --pretty" /\
    spawned_cwd r = Some (last (map dirpath (walk fs directory)) directory) /\
    (exists name q, spawned_cwd r = Some (directory ++ name :: q)) /\
    spawned_cwd r <> Some directory.
Proof.
  intros Hex Hdir Hsub Hst.
  assert (Hd : d = last (map dirpath (walk fs directory)) directory).
  { unfold staleness in Hst. rewrite Hex in Hst.
    destruct (getmtime fs output_file); [|discriminate].
    destruct (walk_loop fs (walk fs directory) directory []) as [e|[d' times]] eqn:Hw;
      [discriminate|].
    apply walk_loop_directory in Hw.
    destruct (Py.max times); [|discriminate]. congruence. }
  destruct (walk_ends_below directory m entries directory Hsub) as (name & q & Hq).
  unfold walk in Hd. rewrite Hdir in Hd.
  unfold build_typescript. rewrite Hst.
  eexists. split; [reflexivity|].
  unfold call_cli, call_cli_body.
  destruct (spawned_cwd_unwind "tsc --pretty" (Py.or_default None (Py.Given (Some d)))
              (poll_loop "tsc --pretty" (Py.or_default 10000 Py.Omitted)
                 (Py.or_default 60000 Py.Omitted) (time_start w)
                 (time_spawned w + Py.or_default 60000 Py.Omitted) (communicate w)
                 {| hang_end := time_spawned w + Py.or_default 10000 Py.Omitted;
                    last_stdout_len := 0; last_stderr_len := 0;
                    printed_stdout_lines := 0; printed_stderr_lines := 0;
                    done := false; process := Running; console := [] |}
               >>= check_return_code "tsc --pretty" (Py.or_default (Some 0) Py.Omitted)))
    as [-> ->].
  simpl Py.or_default. unfold walk. rewrite Hdir, <- Hd.
  repeat split.
  - exists name, q. now rewrite Hd, Hq.
  - intros [= E]. rewrite Hd, Hq in E.
    rewrite <- (app_nil_r directory) in E at 2.
    apply app_inv_head in E. discriminate.
Qed.

Lemma compiler_runs_in_last_walked_witness :
  exists r,
    compiler (build_typescript project ["typescript"] ["site"; "typescript.js"]
                {| time_start := 0; time_spawned := 1; communicate := [] |}) = Some r /\
    spawned_command r = "tsc --pretty" /\
    spawned_cwd r = Some (last (map dirpath (walk project ["typescript"])) ["typescript"]) /\
    (exists name q, spawned_cwd r = Some (["typescript"] ++ name :: q)) /\
    spawned_cwd r <> Some ["typescript"].
Proof.
  apply (compiler_runs_in_last_walked project ["typescript"] ["site"; "typescript.js"]
           1 [("a.ts", File 50);
              ("sub", Dir 2 [("b.ts", File 120); ("deep", Dir 3 [])]);
              ("z", Dir 4 [("c.ts", File 10)])]
           ["typescript"; "z"]).
  - reflexivity.
  - reflexivity.
  - exists "z", 4, [("c.ts", File 10)]. right; right; left. reflexivity.
  - reflexivity.
Defined.

End BuildClaims.

(** ** More on the runner *)

Module RunnerExtras.
Import Runner Supervision Samples RunnerFacts SupervisionFacts SampleFacts.
Local Open Scope list_scope.

Lemma iteration_past_total_limit command max_hang max_time start absolute_end
    stdout stderr now st :
  absolute_end < now ->
  exists e st',
    iteration command max_hang max_time start absolute_end
      (TimeoutExpired stdout stderr now) st = Throw e st'.
Proof.
  intros H. apply Z.ltb_lt in H.
  cbn [iteration]. unfold echo_stdout, echo_stderr, check_deadlines. rewrite H.
  repeat match goal with
         | |- context [match ?x with _ => _ end] => destruct x; cbn [bind]
         end; eauto.
Qed.

Lemma last_outcome_ends_loop command max_hang max_time start absolute_end pre o :
  match o with
  | TimeoutExpired _ _ now => absolute_end < now
  | _ => True
  end ->
  forall st rest,
    poll_loop command max_hang max_time start absolute_end (pre ++ o :: rest) st
    = poll_loop command max_hang max_time start absolute_end (pre ++ [o]) st /\
    forall st', poll_loop command max_hang max_time start absolute_end (pre ++ [o]) st
                <> Pending st'.
Proof.
  intros Ho st rest. rewrite !poll_loop_app.
  destruct (poll_loop command max_hang max_time start absolute_end pre st)
    as [s|e s|s] eqn:Hpre; try (split; [reflexivity|discriminate]).
  apply poll_loop_pending_not_done in Hpre.
  cbn [poll_loop]. rewrite Hpre.
  destruct o as [out err rc|out err now|e reaped].
  - cbn [iteration bind]. split; [|discriminate].
    destruct rest; reflexivity.
  - destruct (iteration_past_total_limit command max_hang max_time start absolute_end
                out err now s Ho) as (e & s' & ->).
    split; [reflexivity|discriminate].
  - split; [reflexivity|discriminate].
Qed.

Lemma ended_polling_pending command directory expected f :
  ended (unwind command directory (f >>= check_return_code command expected)) = Polling ->
  exists st, f = Pending st.
Proof.
  destruct f as [s|e s|s]; cbn [bind]; [|discriminate|eauto].
  unfold check_return_code. destruct expected; [|discriminate].
  destruct (process s); try discriminate. destruct (negb _); discriminate.
Qed.

(** Whatever the child does, a call ends: it is over with the first wait
    that times out after the total limit, if not before, and that happens
    within [max_time / 2000 + 1] waits. *)
Theorem call_cli_ends command directory max_hang max_time expected start spawned c tick :
  schedule start spawned tick ->
  exists k,
    poll_interval * Z.of_nat k <= Z.max 0 (Py.or_default 60000 max_time) /\
    forall n, (k < n)%nat ->
      ended (call_cli command directory max_hang max_time expected
               (supervise c tick start spawned n)) <> Polling.
Proof.
  intros Hs. set (mt := Py.or_default 60000 max_time).
  destruct (first_tick_past start spawned tick Hs (spawned + mt)) as (k & Hk & Hfirst).
  exists k. split.
  - destruct k as [|k]; [unfold poll_interval; lia|].
    specialize (Hfirst k ltac:(lia)).
    pose proof (tick_lower_bound _ _ _ Hs k). unfold poll_interval in *. lia.
  - assert (Hterm : match observe c tick k with
                   | TimeoutExpired _ _ now => spawned + mt < now
                   | _ => True
                   end).
    { unfold observe, completed, expired.
      destruct (finished c) as [[t rc]|]; [|exact Hk].
      destruct (t <=? tick k); [|exact Hk].
      destruct (Py.decode_utf8 (stdout_by c t)); [|exact I].
      destruct (Py.decode_utf8 (stderr_by c t)); exact I. }
    assert (Hend : ended (call_cli_body command (Py.or_default None directory)
                            (Py.or_default 10000 max_hang) mt
                            (Py.or_default (Some 0) expected)
                            (supervise c tick start spawned (S k))) <> Polling).
    { rewrite call_cli_body_supervise. intros Hp.
      apply ended_polling_pending in Hp as (st & Hp).
      change (observations_from c tick 0 (S k)) with (observations c tick (S k)) in Hp.
      replace (S k) with (k + 1)%nat in Hp by lia.
      rewrite observations_split in Hp. cbn [observations_from seq map] in Hp.
      revert Hp.
      apply (proj2 (last_outcome_ends_loop command (Py.or_default 10000 max_hang) mt start
                      (spawned + mt) (observations c tick k) (observe c tick k) Hterm
                      (initial spawned (Py.or_default 10000 max_hang)) [])). }
    intros n Hn. unfold call_cli. fold mt.
    rewrite (call_cli_body_settled _ _ _ _ _ c tick start spawned (S k) Hend n); [exact Hend|lia].
Qed.


(** A call that returns has reaped a child that exited by itself, and with
    the expected return code when one is expected. *)
Theorem return_means_expected_code command directory max_hang max_time expected w :
  ended (call_cli command directory max_hang max_time expected w) = Returned tt ->
  exists rc,
    child (call_cli command directory max_hang max_time expected w) = Exited rc /\
    forall x, Py.or_default (Some 0) expected = Some x -> rc = x.
Proof.
  unfold call_cli.
  destruct (call_cli_body_cases command (Py.or_default None directory)
              (Py.or_default 10000 max_hang) (Py.or_default 60000 max_time)
              (Py.or_default (Some 0) expected) w) as [[H _]|[(e & H & _)|(rc & Hc & H)]];
    cbv zeta in *; intros Hr; try congruence.
  exists rc. split; [exact Hc|]. intros x Hx. rewrite Hx in H.
  destruct (Z.eqb_spec rc x); [assumption|congruence].
Qed.

Lemma return_means_expected_code_witness :
  exists rc,
    child (call_cli "sleep 3.5" Py.Omitted Py.Omitted Py.Omitted Py.Omitted
             (supervise short_sleep steady 0 1 2)) = Exited rc /\
    forall x, Py.or_default (Some 0) Py.Omitted = Some x -> rc = x.
Proof.
  apply (return_means_expected_code "sleep 3.5" Py.Omitted Py.Omitted Py.Omitted Py.Omitted
           (supervise short_sleep steady 0 1 2)).
  reflexivity.
Defined.

Lemma observe_quiet c tick j :
  unfinished_at c (tick j) ->
  stdout_by c (tick j) = "" /\ stderr_by c (tick j) = "" ->
  observe c tick j = TimeoutExpired None None (tick j).
Proof.
  intros Hr [Ho He]. rewrite (observe_unfinished c tick j Hr). unfold expired.
  now rewrite Ho, He.
Qed.

(** Waits that time out on a silent child before either deadline change
    nothing. *)
Lemma quiet_polls command max_hang max_time start spawned c tick m :
  forall j st,
    (forall i, (j <= i < j + m)%nat ->
       unfinished_at c (tick i) /\
       (stdout_by c (tick i) = "" /\ stderr_by c (tick i) = "") /\
       tick i <= spawned + max_hang /\ tick i <= spawned + max_time) ->
    hang_end st = spawned + max_hang -> done st = false ->
    poll_loop command max_hang max_time start (spawned + max_time)
      (observations_from c tick j m) st = Pending st.
Proof.
  induction m as [|m IH]; intros j st Hi Hh Hd.
  - simpl. now rewrite Hd.
  - rewrite observations_from_S. cbn [poll_loop]. rewrite Hd.
    destruct (Hi j ltac:(lia)) as (Hr & Hq & B1 & B2).
    rewrite (observe_quiet c tick j Hr Hq).
    cbn [iteration updated bind]. unfold check_deadlines. rewrite Hh.
    destruct (Z.ltb_spec (spawned + max_hang) (tick j)); [lia|]. cbn [orb bind].
    destruct (Z.ltb_spec (spawned + max_time) (tick j)); [lia|]. cbn [bind].
    apply IH; auto. intros i Hi'. apply Hi. lia.
Qed.

(** On a child that stays silent, the first wait that times out after
    either deadline ends the call: by [CommandHung] when the hang deadline
    has passed, also when the total limit has passed with it, and by
    [CommandTimeout] only when the total limit alone has passed. *)
Theorem silent_child_first_deadline command directory max_hang max_time expected
    start spawned c tick k :
  schedule start spawned tick ->
  (forall j, (j < k)%nat -> tick j <= spawned + max_hang /\ tick j <= spawned + max_time) ->
  spawned + max_hang < tick k \/ spawned + max_time < tick k ->
  silent_until c (tick k) ->
  running_at c (tick k) ->
  forall n, (k < n)%nat ->
    let r := call_cli command directory (Py.Given max_hang) (Py.Given max_time) expected
               (supervise c tick start spawned n) in
    ended r = Raised (if spawned + max_hang <? tick k
                      then CommandHung command max_hang (tick k - start)
                      else CommandTimeout command max_time) /\
    child r = Killed.
Proof.
  intros Hs Hb Ha Hq Hr.
  assert (Hsil : forall j, (j <= k)%nat ->
            stdout_by c (tick j) = "" /\ stderr_by c (tick j) = "").
  { intros j Hj. apply Hq. apply (tick_mono _ _ _ Hs). exact Hj. }
  assert (Hrun : forall j, (j <= k)%nat -> unfinished_at c (tick j)).
  { intros j Hj. apply running_unfinished.
    apply (running_at_earlier c (tick k)); [|exact Hr].
    apply (tick_mono _ _ _ Hs). exact Hj. }
  assert (H : ended (call_cli_body command (Py.or_default None directory) max_hang max_time
                       (Py.or_default (Some 0) expected)
                       (supervise c tick start spawned (S k)))
              = Raised (if spawned + max_hang <? tick k
                        then CommandHung command max_hang (tick k - start)
                        else CommandTimeout command max_time)).
  { rewrite call_cli_body_supervise.
    change (observations_from c tick 0 (S k)) with (observations c tick (S k)).
    replace (S k) with (k + 1)%nat by lia.
    rewrite observations_split, poll_loop_app.
    change (observations c tick k) with (observations_from c tick 0 k).
    rewrite (quiet_polls command max_hang max_time start spawned c tick k 0%nat); auto;
      [|intros i Hi; destruct (Hb i ltac:(lia)); repeat split; auto;
        try (apply Hrun; lia); apply Hsil; lia].
    cbn [observations_from seq map poll_loop initial done].
    rewrite (observe_quiet c tick k (Hrun k (le_n k)) (Hsil k (le_n k))).
    cbn [iteration updated bind orb]. unfold check_deadlines.
    change (hang_end (initial spawned max_hang)) with (spawned + max_hang).
    destruct (Z.ltb_spec (spawned + max_hang) (tick k)); cbn [bind]; [reflexivity|].
    destruct (Z.ltb_spec (spawned + max_time) (tick k)); [reflexivity|lia]. }
  intros n Hn. unfold call_cli. cbv zeta.
  change (Py.or_default 10000 (Py.Given max_hang)) with max_hang.
  change (Py.or_default 60000 (Py.Given max_time)) with max_time.
  rewrite (call_cli_body_settled _ _ _ _ _ c tick start spawned (S k)) by (congruence || lia).
  split; [exact H|].
  eapply deadline_raised_child; [exact H| |];
    destruct (spawned + max_hang <? tick k); discriminate.
Qed.

Lemma silent_child_first_deadline_witness :
  let r := call_cli "sleep 20" Py.Omitted (Py.Given 5000) (Py.Given 3000) Py.Omitted
             (supervise long_sleep steady 0 1 2) in
  ended r = Raised (if 1 + 5000 <? steady 1
                    then CommandHung "sleep 20" 5000 (steady 1 - 0)
                    else CommandTimeout "sleep 20" 3000) /\
  child r = Killed.
Proof.
  apply (silent_child_first_deadline "sleep 20" Py.Omitted 5000 3000 Py.Omitted
           0 1 long_sleep steady 1 steady_schedule).
  - intros j Hj. assert (j = 0%nat) as -> by lia. vm_compute. split; discriminate.
  - right. reflexivity.
  - intros t _. split; reflexivity.
  - reflexivity.
  - lia.
Defined.


(** When no wait that timed out has seen any output (the child had written
    nothing at any of them, and finishes before a deadline is found
    passed), and what it has written by then decodes as UTF-8, the call
    echoes every complete line of the text, line ends translated, exactly
    once: those of stdout in order, then those of stderr in order. *)
Theorem quiet_until_exit_echoes_all command directory max_hang max_time expected
    start spawned c tick k e rc :
  schedule start spawned tick ->
  finished c = Some (e, rc) ->
  e <= tick k ->
  (forall j, (j < k)%nat ->
     tick j < e /\ tick j <= spawned + max_hang /\ tick j <= spawned + max_time /\
     stdout_by c (tick j) = "" /\ stderr_by c (tick j) = "") ->
  Py.utf8_valid (stdout_by c e) = true ->
  Py.utf8_valid (stderr_by c e) = true ->
  Py.or_default (Some 0) expected = None \/ Py.or_default (Some 0) expected = Some rc ->
  forall n, (k < n)%nat ->
    let r := call_cli command directory (Py.Given max_hang) (Py.Given max_time) expected
               (supervise c tick start spawned n) in
    ended r = Returned tt /\
    child r = Exited rc /\
    printed r
    = map (append tag_stdout) (complete_lines (translate_newlines (stdout_by c e)))
      ++ map (append tag_stderr) (complete_lines (translate_newlines (stderr_by c e))).
Proof.
  intros Hs Hfin Hk Hq Uo Ue Hexp.
  pose proof (observe_finished c tick k e rc Hfin Hk Uo Ue) as Hobs.
  assert (H : forall r,
            r = call_cli_body command (Py.or_default None directory) max_hang max_time
                  (Py.or_default (Some 0) expected) (supervise c tick start spawned (S k)) ->
            ended r = Returned tt /\ child r = Exited rc /\
            printed r
            = map (append tag_stdout) (complete_lines (translate_newlines (stdout_by c e)))
              ++ map (append tag_stderr)
                   (complete_lines (translate_newlines (stderr_by c e)))).
  { intros r ->. rewrite call_cli_body_supervise.
    change (observations_from c tick 0 (S k)) with (observations c tick (S k)).
    replace (S k) with (k + 1)%nat by lia.
    rewrite observations_split, poll_loop_app.
    change (observations c tick k) with (observations_from c tick 0 k).
    rewrite (quiet_polls command max_hang max_time start spawned c tick k 0%nat);
      try reflexivity.
    - cbn [observations_from seq map poll_loop initial done]. rewrite Hobs.
      destruct (flush_console command max_hang max_time start (spawned + max_time)
                  (translate_newlines (stdout_by c e)) (translate_newlines (stderr_by c e))
                  rc (initial spawned max_hang))
        as (st' & -> & Hd & Hp & Hc).
      cbn [bind].
      change (poll_loop command max_hang max_time start (spawned + max_time) [] st')
        with (poll_loop command 0 0 0 0 [] st').
      rewrite (unwind_reaped command _ _ rc st' Hd Hp Hexp).
      cbn [ended child printed]. rewrite Hc. auto.
    - intros i Hi. destruct (Hq i ltac:(lia)) as (A & B & C & D & E).
      repeat split; auto. unfold unfinished_at. now rewrite Hfin. }
  intros n Hn. unfold call_cli. cbv zeta.
  change (Py.or_default 10000 (Py.Given max_hang)) with max_hang.
  change (Py.or_default 60000 (Py.Given max_time)) with max_time.
  destruct (H _ eq_refl) as (He & Hc & Hp).
  rewrite (call_cli_body_settled _ _ _ _ _ c tick start spawned (S k)) by (congruence || lia).
  auto.
Qed.

Lemma quiet_until_exit_echoes_all_witness :
  let r := call_cli "sleep 3; echo o; echo e >&2" Py.Omitted (Py.Given 10000)
             (Py.Given 60000) Py.Omitted (supervise late_words steady 0 1 2) in
  ended r = Returned tt /\
  child r = Exited 0 /\
  printed r
  = map (append tag_stdout) (complete_lines (translate_newlines (stdout_by late_words 3100)))
    ++ map (append tag_stderr)
         (complete_lines (translate_newlines (stderr_by late_words 3100))).
Proof.
  apply (quiet_until_exit_echoes_all "sleep 3; echo o; echo e >&2" Py.Omitted 10000 60000
           Py.Omitted 0 1 late_words steady 1 3100 0 steady_schedule).
  - reflexivity.
  - vm_compute. discriminate.
  - intros j Hj. assert (j = 0)%nat as -> by lia. vm_compute.
    repeat split; discriminate.
  - reflexivity.
  - reflexivity.
  - right. reflexivity.
  - lia.
Defined.

(** When what the child has written by the time it finishes does not decode
    as UTF-8, and no wait that timed out has seen any output, [communicate]
    raises after it has waited for the child: the call ends by
    [UnicodeDecodeError] whatever the return code and the one expected, an
    empty line is all it prints, and the child, reaped, is not killed. *)
Theorem undecodable_final_output_raises command directory max_hang max_time expected
    start spawned c tick k e rc :
  schedule start spawned tick ->
  finished c = Some (e, rc) ->
  e <= tick k ->
  (forall j, (j < k)%nat ->
     tick j < e /\ tick j <= spawned + max_hang /\ tick j <= spawned + max_time /\
     stdout_by c (tick j) = "" /\ stderr_by c (tick j) = "") ->
  Py.utf8_valid (stdout_by c e) = false \/ Py.utf8_valid (stderr_by c e) = false ->
  forall n, (k < n)%nat ->
    let r := call_cli command directory (Py.Given max_hang) (Py.Given max_time) expected
               (supervise c tick start spawned n) in
    ended r = Raised UnicodeDecodeError /\
    child r = Exited rc /\
    printed r = [""].
Proof.
  intros Hs Hfin Hk Hq Hbad.
  assert (Hobs : observe c tick k = Interrupted UnicodeDecodeError (Some rc)).
  { unfold observe. rewrite Hfin. destruct (Z.leb_spec e (tick k)); [|lia].
    unfold completed, Py.decode_utf8.
    destruct Hbad as [-> | ->]; [reflexivity|].
    destruct (Py.utf8_valid (stdout_by c e)); reflexivity. }
  assert (H : forall r,
            r = call_cli_body command (Py.or_default None directory) max_hang max_time
                  (Py.or_default (Some 0) expected) (supervise c tick start spawned (S k)) ->
            ended r = Raised UnicodeDecodeError /\ child r = Exited rc /\ printed r = [""]).
  { intros r ->. rewrite call_cli_body_supervise.
    change (observations_from c tick 0 (S k)) with (observations c tick (S k)).
    replace (S k) with (k + 1)%nat by lia.
    rewrite observations_split, poll_loop_app.
    change (observations c tick k) with (observations_from c tick 0 k).
    rewrite (quiet_polls command max_hang max_time start spawned c tick k 0%nat);
      try reflexivity.
    - cbn [observations_from seq map poll_loop initial done]. rewrite Hobs.
      repeat split.
    - intros i Hi. destruct (Hq i ltac:(lia)) as (A & B & C & D & E).
      repeat split; auto. unfold unfinished_at. now rewrite Hfin. }
  intros n Hn. unfold call_cli. cbv zeta.
  change (Py.or_default 10000 (Py.Given max_hang)) with max_hang.
  change (Py.or_default 60000 (Py.Given max_time)) with max_time.
  destruct (H _ eq_refl) as (He & Hc & Hp).
  rewrite (call_cli_body_settled _ _ _ _ _ c tick start spawned (S k)) by (congruence || lia).
  auto.
Qed.

Lemma undecodable_final_output_raises_witness :
  let r := call_cli "sleep 3; printf '\211'; exit 2" Py.Omitted (Py.Given 10000)
             (Py.Given 60000) Py.Omitted (supervise late_garbled steady 0 1 2) in
  ended r = Raised UnicodeDecodeError /\ child r = Exited 2 /\ printed r = [""].
Proof.
  apply (undecodable_final_output_raises "sleep 3; printf '\211'; exit 2" Py.Omitted
           10000 60000 Py.Omitted 0 1 late_garbled steady 1 3100 2 steady_schedule).
  - reflexivity.
  - vm_compute. discriminate.
  - intros j Hj. assert (j = 0)%nat as -> by lia. vm_compute.
    repeat split; discriminate.
  - left. reflexivity.
  - lia.
Defined.

(** After a wait that timed out having seen new output on stdout, the line
    of stdout that comes next is never echoed: the flush at the end prints
    the later ones only. Here for a call whose first wait times out with
    the text [a] captured and whose second call of [communicate] returns
    the text [a ++ b]. *)
Theorem line_after_poll_is_skipped command directory max_hang max_time expected
    start spawned a b now rc :
  a <> "" ->
  Py.utf8_valid a = true ->
  now <= spawned + Py.or_default 60000 max_time ->
  Py.or_default (Some 0) expected = None \/ Py.or_default (Some 0) expected = Some rc ->
  let r := call_cli command directory max_hang max_time expected
             {| time_start := start;
                time_spawned := spawned;
                communicate := [TimeoutExpired (Some a) None now;
                                Finished (a ++ b)%string "" rc] |} in
  exists more,
    complete_lines (a ++ b)%string = complete_lines a ++ more /\
    ended r = Returned tt /\
    printed r = map (append tag_stdout) (complete_lines a ++ tl more).
Proof.
  intros Ha Hu Hnow Hexp.
  destruct (complete_lines_app a b) as (more & Hmore). exists more.
  split; [exact Hmore|].
  unfold call_cli, call_cli_body. cbn [communicate time_spawned time_start].
  set (mt := Py.or_default 60000 max_time) in *.
  set (mh := Py.or_default 10000 max_hang).
  fold (initial spawned mh).
  assert (H1 : exists st1,
             iteration command mh mt start (spawned + mt)
               (TimeoutExpired (Some a) None now) (initial spawned mh) = Continue st1 /\
             done st1 = false /\
             printed_stdout_lines st1 = List.length (Py.split_nl a) /\
             printed_stderr_lines st1 = 0%nat /\
             console st1 = map (append tag_stdout) (complete_lines a)).
  { cbn [iteration initial last_stdout_len last_stderr_len].
    assert (Hup : updated (Some a) 0 = true).
    { destruct a; [contradiction|reflexivity]. }
    rewrite Hup. change (updated None 0) with false. cbn [orb].
    unfold echo_stdout, Py.decode_utf8. rewrite Hu, print_all_eq. cbn [bind].
    unfold check_deadlines. cbn [bind].
    destruct (Z.ltb_spec (spawned + mt) now); [lia|].
    eexists. split; [reflexivity|]. simpl. repeat split. }
  destruct H1 as (st1 & Hi1 & Hd1 & Po1 & Pe1 & C1).
  cbn [poll_loop]. change (done (initial spawned mh)) with false. cbv iota.
  rewrite Hi1. cbn [bind]. rewrite Hd1.
  destruct (flush_console command mh mt start (spawned + mt) (a ++ b)%string "" rc st1)
    as (st' & -> & Hd & Hp & Hc).
  cbn [bind].
  change (poll_loop command mh mt start (spawned + mt) [] st')
    with (poll_loop command 0 0 0 0 [] st').
  rewrite (unwind_reaped command _ _ rc st' Hd Hp Hexp).
  cbn [ended printed]. split; [reflexivity|].
  rewrite Hc, C1, Po1, Pe1, Hmore, complete_lines_length.
  replace (S (List.length (complete_lines a))) with (List.length (complete_lines a) + 1)%nat
    by lia.
  rewrite skipn_app, skipn_all2 by lia.
  replace (List.length (complete_lines a) + 1 - List.length (complete_lines a))%nat
    with 1%nat by lia.
  cbn [skipn app complete_lines Py.split_nl removelast map].
  rewrite app_nil_r, map_app.
  destruct more; reflexivity.
Qed.

Lemma line_after_poll_is_skipped_witness :
  exists more,
    complete_lines (("a" ++ LF) ++ ("b" ++ LF ++ "c" ++ LF))%string
    = complete_lines ("a" ++ LF)%string ++ more /\
    ended (call_cli "echo a; sleep 3; echo b; echo c" Py.Omitted Py.Omitted Py.Omitted
             Py.Omitted
             {| time_start := 0;
                time_spawned := 1;
                communicate := [TimeoutExpired (Some ("a" ++ LF)%string) None 2001;
                                Finished (("a" ++ LF) ++ ("b" ++ LF ++ "c" ++ LF))%string
                                  "" 0] |}) = Returned tt /\
    printed (call_cli "echo a; sleep 3; echo b; echo c" Py.Omitted Py.Omitted Py.Omitted
               Py.Omitted
               {| time_start := 0;
                  time_spawned := 1;
                  communicate := [TimeoutExpired (Some ("a" ++ LF)%string) None 2001;
                                  Finished (("a" ++ LF) ++ ("b" ++ LF ++ "c" ++ LF))%string
                                    "" 0] |})
    = map (append tag_stdout) (complete_lines ("a" ++ LF)%string ++ tl more).
Proof.
  apply (line_after_poll_is_skipped "echo a; sleep 3; echo b; echo c" Py.Omitted Py.Omitted
           Py.Omitted Py.Omitted 0 1 ("a" ++ LF)%string ("b" ++ LF ++ "c" ++ LF)%string 2001 0).
  - discriminate.
  - reflexivity.
  - vm_compute. discriminate.
  - right. reflexivity.
Defined.


Lemma bind_keeps (P : locals -> Prop) f k :
  P (state_of f) -> (forall st, P st -> P (state_of (k st))) -> P (state_of (f >>= k)).
Proof. destruct f; cbn [bind state_of]; auto. Qed.

Lemma tagged_not_blank l : Forall tagged l -> ~ In "" l.
Proof.
  intros H Hin. rewrite Forall_forall in H.
  destruct (H _ Hin) as (text & [Ht|Ht]); discriminate.
Qed.

Lemma print_stdout_tagged lines st :
  Forall tagged (console st) ->
  Forall tagged (console (print_all (map (append tag_stdout) lines) st)).
Proof.
  intros Hst. rewrite print_all_eq. cbn [console]. apply Forall_app. split; [exact Hst|].
  apply Forall_forall. intros x Hx. apply in_map_iff in Hx as (text & <- & _).
  exists text. now left.
Qed.

Lemma print_stderr_tagged lines st :
  Forall tagged (console st) ->
  Forall tagged (console (print_all (map (append tag_stderr) lines) st)).
Proof.
  intros Hst. rewrite print_all_eq. cbn [console]. apply Forall_app. split; [exact Hst|].
  apply Forall_forall. intros x Hx. apply in_map_iff in Hx as (text & <- & _).
  exists text. now right.
Qed.

Lemma iteration_tagged command max_hang max_time start absolute_end r st :
  Forall tagged (console st) ->
  Forall tagged
    (console (state_of (iteration command max_hang max_time start absolute_end r st))).
Proof.
  intros Hst. destruct r as [out err rc|out err now|e [rc|]]; cbn [iteration state_of].
  - cbn [set_done console]. now apply print_stderr_tagged, print_stdout_tagged.
  - apply bind_keeps.
    + destruct (updated out _); [|exact Hst].
      unfold echo_stdout. destruct out as [b|]; [|exact Hst].
      destruct (Py.decode_utf8 b); [|exact Hst].
      cbn [state_of console]. now apply print_stdout_tagged.
    + intros st1 H1. apply bind_keeps.
      * destruct (updated err _); [|exact H1].
        unfold echo_stderr. destruct err as [b|]; [|exact H1].
        destruct (Py.decode_utf8 b); [|exact H1].
        cbn [state_of console]. now apply print_stderr_tagged.
      * intros st2 H2. unfold check_deadlines.
        destruct (_ || _); cbn [bind].
        -- destruct (absolute_end <? now); exact H2.
        -- destruct (hang_end st2 <? now); cbn [bind]; [exact H2|].
           destruct (absolute_end <? now); exact H2.
  - exact Hst.
  - exact Hst.
Qed.

Lemma poll_loop_tagged command max_hang max_time start absolute_end rs :
  forall st, Forall tagged (console st) ->
    Forall tagged
      (console (state_of (poll_loop command max_hang max_time start absolute_end rs st))).
Proof.
  induction rs as [|r rs IH]; intros st Hst; cbn [poll_loop].
  - destruct (done st); exact Hst.
  - destruct (done st); [exact Hst|].
    apply bind_keeps; [now apply iteration_tagged|apply IH].
Qed.

(** An empty line is printed exactly when a call ends by an exception, and
    then as its last line: every other line is some text under the stdout
    tag or under the stderr tag, and so is not empty. *)
Theorem blank_line_marks_failure command directory max_hang max_time expected w :
  let r := call_cli command directory max_hang max_time expected w in
  (forall e, ended r = Raised e ->
     exists l, printed r = l ++ [""] /\ Forall tagged l /\ ~ In "" l) /\
  ((forall e, ended r <> Raised e) ->
     Forall tagged (printed r) /\ ~ In "" (printed r)).
Proof.
  unfold call_cli, call_cli_body. cbv zeta.
  match goal with
  | |- context [poll_loop ?c ?h ?t ?s ?a ?rs ?st] =>
      pose proof (poll_loop_tagged c h t s a rs st (Forall_nil _)) as Hn;
      destruct (poll_loop c h t s a rs st) as [s1|e1 s1|s1]
  end; cbn [bind state_of] in *; pose proof (tagged_not_blank _ Hn) as Hb.
  - unfold check_return_code.
    destruct (Py.or_default (Some 0) expected) as [x|];
      [destruct (process s1); [| |]; [|destruct (negb _)|]|];
      cbn [unwind ended printed print console]; split;
      try (intros e [= <-]; eauto); try discriminate; try (intros _; split; assumption);
      intros H; exfalso; eapply H; reflexivity.
  - cbn [unwind ended printed print console]. split.
    + intros e [= <-]. eauto.
    + intros H; exfalso; eapply H; reflexivity.
  - cbn [unwind ended printed]. split; [discriminate|intros _; split; assumption].
Qed.

Lemma blank_line_marks_failure_witness :
  exists l,
    printed (call_cli "echo a; sleep 60" Py.Omitted (Py.Given 3000) Py.Omitted Py.Omitted
               (supervise stalled steady 0 1 3)) = l ++ [""] /\
    Forall tagged l /\ ~ In "" l.
Proof.
  apply (blank_line_marks_failure "echo a; sleep 60" Py.Omitted (Py.Given 3000) Py.Omitted
           Py.Omitted (supervise stalled steady 0 1 3))
    with (e := CommandHung "echo a; sleep 60" 3000 6003).
  reflexivity.
Defined.

Lemma call_cli_ends_witness :
  exists k,
    poll_interval * Z.of_nat k <= Z.max 0 (Py.or_default 60000 (Py.Given 3000)) /\
    forall n, (k < n)%nat ->
      ended (call_cli "yes" Py.Omitted Py.Omitted (Py.Given 3000) Py.Omitted
               (supervise chatter steady 0 1 n)) <> Polling.
Proof.
  exact (call_cli_ends "yes" Py.Omitted Py.Omitted (Py.Given 3000) Py.Omitted
           0 1 chatter steady steady_schedule).
Defined.

End RunnerExtras.

(** ** More on the rebuild decision *)

Module BuildExtras.
Import Runner Build Samples BuildFacts.
Local Open Scope list_scope.

(** What the staleness block computes once the output exists, on a
    well-formed tree: the maximum over the files below the directory. *)
Lemma staleness_of_existing fs directory output_file o :
  well_formed fs = true ->
  resolve fs output_file = Some o ->
  exists d,
    staleness fs directory output_file =
    match resolve fs directory with
    | Some n =>
        match Py.max (mtimes_from n) with
        | Some latest => inr (latest >? mtime_of o, d)
        | None => inl ValueError
        end
    | None => inl ValueError
    end.
Proof.
  intros Hwf Ho. unfold staleness, exists_, getmtime, walk. rewrite Ho. cbn [option_map].
  destruct (resolve fs directory) as [n|] eqn:Hn.
  - pose proof (resolve_well_formed _ _ _ Hwf Hn) as Hwfn.
    destruct (walk_loop_collects n Hwfn fs directory Hn directory []) as (d & ->).
    exists d. cbn [app]. destruct (Py.max (mtimes_from n)); reflexivity.
  - exists directory. reflexivity.
Qed.

(** When the output exists and no file below the source directory is newer
    than it (one as old as the output counts as not newer), the build step
    returns [False] and runs no compiler. *)
Theorem up_to_date_skips_compile fs directory output_file o w :
  well_formed fs = true ->
  resolve fs output_file = Some o ->
  (exists p t, file_under fs directory p t) ->
  (forall p t, file_under fs directory p t -> t <= mtime_of o) ->
  outcome (build_typescript fs directory output_file w) = Returned false /\
  compiler (build_typescript fs directory output_file w) = None.
Proof.
  intros Hwf Ho (p & t & Hfile) Hold.
  destruct (staleness_of_existing fs directory output_file o Hwf Ho) as (d & Hst).
  destruct (file_under_directory _ _ _ _ Hfile) as (n & Hn). rewrite Hn in Hst.
  pose proof (resolve_well_formed _ _ _ Hwf Hn) as Hwfn.
  assert (Hin : In t (mtimes_from n)).
  { apply (mtimes_from_resolve n Hwfn). exists p.
    now apply (file_under_resolve fs directory n Hn). }
  destruct (max_nonempty (mtimes_from n)) as (latest & Hmax).
  { intros E. now rewrite E in Hin. }
  rewrite Hmax in Hst.
  assert (Hle : latest <= mtime_of o).
  { apply max_some in Hmax as [Hl _].
    apply (mtimes_from_resolve n Hwfn) in Hl as (q & Hq).
    apply (Hold q). now apply (file_under_resolve fs directory n Hn). }
  unfold build_typescript. rewrite Hst.
  destruct (Z.gtb_spec latest (mtime_of o)); [lia|]. split; reflexivity.
Qed.

(** [ValueError], the failure of [max] on an empty list, comes out of the
    staleness block only when the output exists and there is no file below
    the source directory: a source directory with a file in it, at any
    depth, never gives it. *)
Theorem staleness_raises_only_without_files fs directory output_file :
  well_formed fs = true ->
  staleness fs directory output_file = inl ValueError ->
  exists_ fs output_file = true /\
  forall p t, ~ file_under fs directory p t.
Proof.
  intros Hwf Hst.
  destruct (exists_ fs output_file) eqn:Hex.
  2:{ unfold staleness in Hst. rewrite Hex in Hst. discriminate. }
  unfold exists_ in Hex. destruct (resolve fs output_file) as [o|] eqn:Ho; [|discriminate].
  destruct (staleness_of_existing fs directory output_file o Hwf Ho) as (d & Hst').
  rewrite Hst in Hst'.
  destruct (resolve fs directory) as [n|] eqn:Hn.
  - pose proof (resolve_well_formed _ _ _ Hwf Hn) as Hwfn.
    destruct (Py.max (mtimes_from n)) eqn:Hmax; [discriminate|].
    split; [reflexivity|].
    intros p t Hf. apply (file_under_resolve fs directory n Hn) in Hf.
    assert (Hin : In t (mtimes_from n)) by (apply (mtimes_from_resolve n Hwfn); eauto).
    destruct (mtimes_from n); [contradiction|discriminate].
  - split; [reflexivity|].
    intros p t Hf. apply file_under_directory in Hf as (n & Hn'). congruence.
Qed.

Lemma walk_without_subdirectories top m entries :
  dirnames entries = [] ->
  walk_from top (Dir m entries) = [(top, [], filenames entries)].
Proof.
  intros Hd. rewrite walk_from_dir, Hd. f_equal.
  unfold dirnames in Hd. induction entries as [|[name sub] rest IH]; [reflexivity|].
  cbn [filter snd] in Hd. destruct sub as [t|t es]; cbn [is_dir] in Hd.
  - cbn [flat_map fst snd walk_from app]. apply IH. exact Hd.
  - discriminate.
Qed.

(** The compiler runs in the source directory itself when the output does
    not exist, so that the walk is not made, or when the source directory
    has no subdirectory, so that the walk ends where it starts. *)
Theorem compiler_runs_in_source_directory fs directory output_file d w :
  exists_ fs output_file = false \/
  (exists m entries, resolve fs directory = Some (Dir m entries) /\ dirnames entries = []) ->
  staleness fs directory output_file = inr (true, d) ->
  exists r,
    compiler (build_typescript fs directory output_file w) = Some r /\
    spawned_command r = "tsc --pretty" /\
    spawned_cwd r = Some directory.
Proof.
  intros Hcase Hst.
  assert (Hd : d = directory).
  { unfold staleness in Hst. destruct Hcase as [Hex|(m & entries & Hdir & Hno)].
    - rewrite Hex in Hst. congruence.
    - destruct (exists_ fs output_file); [|congruence].
      destruct (getmtime fs output_file); [|discriminate].
      destruct (walk_loop fs (walk fs directory) directory []) as [e|[d' times]] eqn:Hw;
        [discriminate|].
      apply walk_loop_directory in Hw.
      unfold walk in Hw. rewrite Hdir, (walk_without_subdirectories _ _ _ Hno) in Hw.
      cbn in Hw. destruct (Py.max times); [|discriminate]. congruence. }
  subst d. unfold build_typescript. rewrite Hst.
  eexists. split; [reflexivity|].
  unfold call_cli, call_cli_body.
  match goal with
  | |- context [unwind ?c ?dir ?f] => destruct (spawned_cwd_unwind c dir f) as [-> ->]
  end.
  split; reflexivity.
Qed.

Lemma up_to_date_skips_compile_witness :
  outcome (build_typescript project ["typescript"; "z"] ["site"; "typescript.js"]
             {| time_start := 0; time_spawned := 1; communicate := [] |}) = Returned false.
Proof.
  apply (up_to_date_skips_compile project ["typescript"; "z"] ["site"; "typescript.js"]
           (File 100) {| time_start := 0; time_spawned := 1; communicate := [] |}).
  - reflexivity.
  - reflexivity.
  - exists ["c.ts"], 10. split; [discriminate|reflexivity].
  - intros p t H.
    pose proof (proj1 (file_under_resolve project ["typescript"; "z"]
                         (Dir 4 [("c.ts", File 10)]) eq_refl p t) H) as H'.
    assert (Hin : In t (mtimes_from (Dir 4 [("c.ts", File 10)]))).
    { apply (mtimes_from_resolve (Dir 4 [("c.ts", File 10)]) eq_refl t). eauto. }
    destruct Hin as [<-|[]]. simpl. lia.
Defined.

Lemma staleness_raises_only_without_files_witness :
  exists_ project ["site"; "typescript.js"] = true /\
  forall p t, ~ file_under project ["tests"] p t.
Proof.
  apply (staleness_raises_only_without_files project ["tests"] ["site"; "typescript.js"]).
  - reflexivity.
  - reflexivity.
Defined.

Lemma compiler_runs_in_source_directory_witness :
  exists r,
    compiler (build_typescript project ["typescript"; "z"] ["site"; "missing.js"]
                {| time_start := 0; time_spawned := 1; communicate := [] |}) = Some r /\
    spawned_command r = "tsc --pretty" /\
    spawned_cwd r = Some ["typescript"; "z"].
Proof.
  apply (compiler_runs_in_source_directory project ["typescript"; "z"] ["site"; "missing.js"]
           ["typescript"; "z"]).
  - left. reflexivity.
  - reflexivity.
Defined.

End BuildExtras.


(** ** Downloads *)

Module FetchFacts.
Import Runner Build Fetch Samples BuildFacts.
Local Open Scope list_scope.

Lemma lookup_replace_entry name n entries sub :
  lookup name entries = Some sub ->
  lookup name (replace_entry name n entries) = Some n.
Proof.
  induction entries as [|[x y] rest IH]; simpl; [discriminate|].
  destruct (String.eqb x name) eqn:E; simpl; rewrite E; auto.
Qed.

Lemma lookup_app_fresh name n entries :
  lookup name entries = None ->
  lookup name (entries ++ [(name, n)]) = Some n.
Proof.
  induction entries as [|[x y] rest IH]; simpl.
  - now rewrite String.eqb_refl.
  - destruct (String.eqb x name); [discriminate|auto].
Qed.

(** What was opened for writing is there afterwards, as a file. *)
Lemma resolve_open_wb p :
  forall fs fs' now, open_wb fs p now = inr fs' -> resolve fs' p = Some (File now).
Proof.
  induction p as [|name rest IH]; intros fs fs' now; simpl.
  - destruct fs; [now intros [= <-]|discriminate].
  - destruct fs as [m|m entries]; [discriminate|].
    destruct (lookup name entries) as [sub|] eqn:Hl.
    + destruct (open_wb sub rest now) as [e|sub'] eqn:Ho; [discriminate|].
      intros [= <-]. simpl. rewrite (lookup_replace_entry _ _ _ _ Hl). now apply (IH sub).
    + destruct rest; [|discriminate]. intros [= <-]. simpl.
      now rewrite (lookup_app_fresh _ _ _ Hl).
Qed.

Lemma names_replace_entry name n entries :
  map fst (replace_entry name n entries) = map fst entries.
Proof.
  induction entries as [|[x y] rest IH]; simpl; [reflexivity|].
  destruct (String.eqb x name); simpl; congruence.
Qed.

Lemma lookup_none_fresh name entries :
  lookup name entries = None -> existsb (String.eqb name) (map fst entries) = false.
Proof.
  induction entries as [|[x y] rest IH]; simpl; [reflexivity|].
  rewrite (String.eqb_sym name x).
  destruct (String.eqb x name); [discriminate|auto].
Qed.

Lemma distinct_app_fresh name names :
  existsb (String.eqb name) names = false -> distinct names = true ->
  distinct (names ++ [name]) = true.
Proof.
  induction names as [|x names IH]; simpl; [reflexivity|].
  intros Hf Hd. apply orb_false_iff in Hf as [Hx Hf].
  apply andb_prop in Hd as [Hn Hd].
  rewrite IH by assumption. rewrite andb_true_r.
  rewrite existsb_app. simpl. rewrite String.eqb_sym, Hx.
  apply negb_true_iff in Hn. rewrite Hn. reflexivity.
Qed.

Lemma well_formed_dir_intro m entries :
  distinct (map fst entries) = true ->
  Forall (fun e => well_formed (snd e) = true) entries ->
  well_formed (Dir m entries) = true.
Proof.
  intros Hd Hall. simpl. rewrite Hd. simpl. clear Hd.
  induction Hall as [|[name sub] rest Hsub _ IH]; [reflexivity|].
  simpl in Hsub. now rewrite Hsub, IH.
Qed.

Lemma Forall_replace_entry (P : node -> Prop) name n entries :
  P n -> Forall (fun e => P (snd e)) entries ->
  Forall (fun e => P (snd e)) (replace_entry name n entries).
Proof.
  intros Hn Hall. induction Hall as [|[x y] rest Hy Hrest IH]; simpl; [constructor|].
  destruct (String.eqb x name); constructor; auto.
Qed.

(** Writing a file keeps the names of every directory distinct. *)
Lemma open_wb_well_formed p :
  forall fs fs' now,
    well_formed fs = true -> open_wb fs p now = inr fs' -> well_formed fs' = true.
Proof.
  induction p as [|name rest IH]; intros fs fs' now Hwf; simpl.
  - destruct fs; [now intros [= <-]|discriminate].
  - destruct fs as [m|m entries]; [discriminate|].
    apply well_formed_dir in Hwf as [Hd Hsub].
    destruct (lookup name entries) as [sub|] eqn:Hl.
    + destruct (open_wb sub rest now) as [e|sub'] eqn:Ho; [discriminate|].
      intros [= <-]. apply well_formed_dir_intro.
      * now rewrite names_replace_entry.
      * apply (Forall_replace_entry (fun n => well_formed n = true)); [|exact Hsub].
        apply (IH sub sub' now); [|exact Ho].
        rewrite Forall_forall in Hsub. apply (Hsub (name, sub)). now apply lookup_in.
    + destruct rest; [|discriminate]. intros [= <-]. apply well_formed_dir_intro.
      * rewrite map_app. simpl. apply distinct_app_fresh; [|exact Hd].
        now apply lookup_none_fresh.
      * apply Forall_app. split; [exact Hsub|]. constructor; [reflexivity|constructor].
Qed.

Lemma open_wb_error p :
  forall fs now e, open_wb fs p now = inl e -> e <> ContentTooShortError /\ e <> URLError.
Proof.
  induction p as [|name rest IH]; intros fs now e; simpl.
  - destruct fs; [discriminate|]. intros [= <-]. split; discriminate.
  - destruct fs as [m|m entries]; [intros [= <-]; split; discriminate|].
    destruct (lookup name entries) as [sub|].
    + destruct (open_wb sub rest now) as [e'|sub'] eqn:Ho; [|discriminate].
      intros [= <-]. now apply (IH sub now).
    + destruct rest; [discriminate|]. intros [= <-]. split; discriminate.
Qed.

End FetchFacts.

Module FetchExtras.
Import Runner Build Fetch Samples BuildFacts FetchFacts BuildExtras.
Local Open Scope list_scope.

(** Once a download has got as far as making the file, whether it then
    returned or was cut short with [ContentTooShortError], the destination
    exists, and a later download to it, of any address, makes no request,
    prints nothing, changes nothing and returns. *)
Theorem download_is_not_repeated net fs url destination now net' url' now' :
  let first := download net fs url destination now in
  raised first = None \/ raised first = Some ContentTooShortError ->
  exists_ (files first) destination = true /\
  download net' (files first) url' destination now'
  = {| files := files first; requests := []; output := ""; raised := None |}.
Proof.
  cbv zeta. intros H.
  assert (Hex : exists_ (files (download net fs url destination now)) destination = true).
  { unfold download in *. destruct (exists_ fs destination) eqn:Hex; [exact Hex|].
    cbn [negb] in *. unfold urlretrieve in *.
    destruct (net url); cbn [files raised] in *.
    - destruct H; discriminate.
    - destruct (open_wb fs destination now) as [e|fs'] eqn:Ho; cbn [files raised] in *.
      + apply open_wb_error in Ho as [Ho _]. destruct H as [H|H]; [discriminate|congruence].
      + unfold exists_. now rewrite (resolve_open_wb _ _ _ _ Ho).
    - destruct (open_wb fs destination now) as [e|fs'] eqn:Ho; cbn [files raised] in *.
      + apply open_wb_error in Ho as [Ho _]. destruct H as [H|H]; [discriminate|congruence].
      + unfold exists_. now rewrite (resolve_open_wb _ _ _ _ Ho). }
  split; [exact Hex|]. unfold download at 1. now rewrite Hex.
Qed.

Lemma download_is_not_repeated_witness :
  exists_ (files (download (fun _ => Truncated) project "https://code.jquery.com/qunit.js"
                    ["site"; "qunit.js"] 200)) ["site"; "qunit.js"] = true /\
  download (fun _ => Complete)
    (files (download (fun _ => Truncated) project "https://code.jquery.com/qunit.js"
              ["site"; "qunit.js"] 200))
    "https://code.jquery.com/qunit.js" ["site"; "qunit.js"] 300
  = {| files := files (download (fun _ => Truncated) project
                         "https://code.jquery.com/qunit.js" ["site"; "qunit.js"] 200);
       requests := []; output := ""; raised := None |}.
Proof.
  apply (download_is_not_repeated (fun _ => Truncated) project
           "https://code.jquery.com/qunit.js" ["site"; "qunit.js"] 200).
  right. reflexivity.
Defined.

(** A download that fails before the file is made, because the request
    fails or the file cannot be opened, changes nothing, and the next
    download to the same destination makes its request. *)
Theorem failed_download_is_retried net fs url destination now e net' url' now' :
  raised (download net fs url destination now) = Some e ->
  e <> ContentTooShortError ->
  files (download net fs url destination now) = fs /\
  requests (download net' fs url' destination now') = [url'].
Proof.
  unfold download. destruct (exists_ fs destination); cbn [negb raised]; [discriminate|].
  intros H He. split.
  - unfold urlretrieve in *. destruct (net url); cbn [files raised] in *; [reflexivity| |].
    + destruct (open_wb fs destination now); cbn [files raised] in *; [reflexivity|congruence].
    + destruct (open_wb fs destination now); cbn [files raised] in *;
        [reflexivity|discriminate].
  - destruct (urlretrieve net' fs url' destination now') as [fs' [e'|]]; reflexivity.
Qed.

Lemma failed_download_is_retried_witness :
  files (download (fun _ => Complete) project "https://code.jquery.com/qunit.js"
           ["assets"; "qunit.js"] 200) = project /\
  requests (download (fun _ => Complete) project "https://code.jquery.com/qunit.js"
              ["assets"; "qunit.js"] 300) = ["https://code.jquery.com/qunit.js"].
Proof.
  apply (failed_download_is_retried (fun _ => Complete) project
           "https://code.jquery.com/qunit.js" ["assets"; "qunit.js"] 200
           (Os FileNotFoundError)).
  - reflexivity.
  - discriminate.
Defined.

(** A file that a download has just made in a directory makes that
    directory stale against any output older than the download: the build
    step that follows rebuilds. *)
Theorem download_makes_stale net fs url directory name now output_file o :
  well_formed fs = true ->
  requests (download net fs url (join directory name) now) = [url] ->
  raised (download net fs url (join directory name) now) = None ->
  resolve (files (download net fs url (join directory name) now)) output_file = Some o ->
  mtime_of o < now ->
  exists d,
    staleness (files (download net fs url (join directory name) now)) directory output_file
    = inr (true, d).
Proof.
  intros Hwf Hreq Hr.
  assert (Ho : exists fs', open_wb fs (join directory name) now = inr fs' /\
                 files (download net fs url (join directory name) now) = fs').
  { unfold download in *. destruct (exists_ fs (join directory name)); cbn [negb] in *;
      [discriminate|].
    unfold urlretrieve in *.
    destruct (net url); cbn [raised files] in *; try discriminate;
      destruct (open_wb fs (join directory name) now) as [e|fs'];
      cbn [raised files] in *; try discriminate; eauto. }
  destruct Ho as (fs' & Ho & ->). intros Hout Hlt.
  pose proof (open_wb_well_formed _ _ _ _ Hwf Ho) as Hwf'.
  pose proof (resolve_open_wb _ _ _ _ Ho) as Hnew.
  assert (Hfile : file_under fs' directory [name] now) by (split; [discriminate|exact Hnew]).
  destruct (staleness_of_existing fs' directory output_file o Hwf' Hout) as (d & Hst).
  destruct (file_under_directory _ _ _ _ Hfile) as (n & Hn). rewrite Hn in Hst.
  pose proof (resolve_well_formed _ _ _ Hwf' Hn) as Hwfn.
  assert (Hin : In now (mtimes_from n)).
  { apply (mtimes_from_resolve n Hwfn). exists [name].
    now apply (file_under_resolve fs' directory n Hn). }
  destruct (max_nonempty (mtimes_from n)) as (latest & Hmax).
  { intros E. now rewrite E in Hin. }
  rewrite Hmax in Hst. exists d. rewrite Hst.
  apply max_some in Hmax as [_ Hall]. specialize (Hall now Hin).
  destruct (Z.gtb_spec latest (mtime_of o)); [reflexivity|lia].
Qed.

Lemma download_makes_stale_witness :
  exists d,
    staleness (files (download (fun _ => Complete) project "https://example.org/qunit.d.ts"
                        (join ["typescript"; "z"] "qunit.d.ts") 200))
      ["typescript"; "z"] ["site"; "typescript.js"]
    = inr (true, d).
Proof.
  apply (download_makes_stale (fun _ => Complete) project "https://example.org/qunit.d.ts"
           ["typescript"; "z"] "qunit.d.ts" 200 ["site"; "typescript.js"] (File 100)).
  - reflexivity.
  - reflexivity.
  - reflexivity.
  - reflexivity.
  - reflexivity.
Defined.

End FetchExtras.
